(** * inferringAndExpanding.py: review loading, field extraction,
      remote enrichment and CSV output

    A shallow embedding of [src/inferringAndExpanding.py].  Python [str]
    values are lists of characters; a character is a code point in the
    range 0..255 (type [ascii]), the part of Unicode on which
    [str.lower], [str.strip] and [str.isspace] are given below.  The
    remote chat session, the file store and the order of effects are
    explicit: every function that performs I/O is a state transformer
    over [World] that either returns a value or raises. *)

From Stdlib Require Import Ascii String Arith Lia Bool List.
Import ListNotations.

(* ================================================================== *)
(** ** Python strings *)
(* ================================================================== *)

Module PyStr.

Definition str := list ascii.

(** A string literal of the source. *)
Definition lit (s : string) : str := list_ascii_of_string s.

Definition str_eqb (a b : str) : bool :=
  if list_eq_dec ascii_dec a b then true else false.

(** [bool(s)] for a string: non-empty. *)
Definition truthy (s : str) : bool :=
  match s with [] => false | _ :: _ => true end.

(** [str.isspace] on one character, for code points below 256:
    TAB..CR, the separators FS..US, SPACE, NEL and NBSP. *)
Definition isspace (c : ascii) : bool :=
  let n := nat_of_ascii c in
  ((9 <=? n) && (n <=? 13)) || ((28 <=? n) && (n <=? 32))
  || (n =? 133) || (n =? 160).

Fixpoint lstrip (s : str) : str :=
  match s with
  | [] => []
  | c :: s' => if isspace c then lstrip s' else s
  end.

Definition rstrip (s : str) : str := rev (lstrip (rev s)).

(** [s.strip()] *)
Definition strip (s : str) : str := rstrip (lstrip s).

(** [s.startswith(p)] *)
Fixpoint startswith (p s : str) : bool :=
  match p, s with
  | [], _ => true
  | _ :: _, [] => false
  | a :: p', b :: s' => Ascii.eqb a b && startswith p' s'
  end.

(** The leftmost occurrence of [sep] in [s]: the text before it and the
    text after it ([str.find] followed by the two slices). *)
Fixpoint find_first (sep s : str) : option (str * str) :=
  if startswith sep s then Some ([], skipn (length sep) s)
  else
    match s with
    | [] => None
    | c :: s' =>
        match find_first sep s' with
        | Some (a, b) => Some (c :: a, b)
        | None => None
        end
    end.

(** [s.split(sep, maxsplit)] for a non-empty [sep] and [maxsplit >= 0]:
    at most [maxsplit] cuts, taken left to right. *)
Fixpoint split_count (maxsplit : nat) (sep s : str) : list str :=
  match maxsplit with
  | 0 => [s]
  | S k =>
      match find_first sep s with
      | None => [s]
      | Some (a, b) => a :: split_count k sep b
      end
  end.

(** [s.split(sep)] for a non-empty [sep]: no limit on the cuts.  A string
    of length [n] holds at most [n] disjoint occurrences of [sep], so the
    limit [length s] is never reached (lemma [split_count_saturates]). *)
Definition split_all (sep s : str) : list str :=
  split_count (length s) sep s.

(** [sep.join(parts)] *)
Fixpoint join (sep : str) (parts : list str) : str :=
  match parts with
  | [] => []
  | [p] => p
  | p :: rest => p ++ sep ++ join sep rest
  end.

(** [sep in s] *)
Definition occurs (sep s : str) : bool :=
  match find_first sep s with Some _ => true | None => false end.

(** What a file opened in text mode with the default [newline=None]
    hands to [read()]: CR LF and a lone CR both become LF. *)
Fixpoint universal_newlines (s : str) : str :=
  match s with
  | [] => []
  | c :: s' =>
      if Ascii.eqb c "013"%char then
        "010"%char ::
        match s' with
        | c' :: s'' =>
            if Ascii.eqb c' "010"%char then universal_newlines s''
            else universal_newlines s'
        | [] => universal_newlines s'
        end
      else c :: universal_newlines s'
  end.

(** [str.lower] on one character, for code points below 256: the ASCII
    capitals and the Latin-1 capitals 0xC0..0xDE other than the
    multiplication sign 0xD7 move up by 32. *)
Definition lower_char (c : ascii) : ascii :=
  let n := nat_of_ascii c in
  if ((65 <=? n) && (n <=? 90))
     || ((192 <=? n) && (n <=? 222) && negb (n =? 215))
  then ascii_of_nat (n + 32) else c.

(** [s.lower()] *)
Definition lower (s : str) : str := map lower_char s.

End PyStr.
Import PyStr.

(* ================================================================== *)
(** ** Exceptions, effects and the world *)
(* ================================================================== *)

(** The remote chat service as the program sees it: an object with a
    [send_message] method that changes the session (its history) and
    either yields the text of the response or raises.  [start_chat]
    stands for [genai.configure], [genai.GenerativeModel] and
    [model.start_chat] of [main], which build the session from the key. *)
Class Remote := {
  Session : Type;
  RemoteErr : Type;
  send_message : Session -> str -> (RemoteErr + str) * Session;
  start_chat : str -> RemoteErr + Session;
  remote_error_text : RemoteErr -> str
}.

Inductive Exn (E : Type) : Type :=
| OSError (path : str)        (* [open] failed on [path] *)
| ValueError (msg : str)
| IndexError
| RemoteError (e : E).

Arguments OSError {E} path.
Arguments ValueError {E} msg.
Arguments IndexError {E}.
Arguments RemoteError {E} e.

Inductive result (E A : Type) : Type :=
| Ok (a : A)
| Raise (e : Exn E).

Arguments Ok {E A} a.
Arguments Raise {E A} e.

(** What the run does to the outside, in the order it does it. *)
Inductive Event : Type :=
| EvSend (prompt : str) (response : option str)  (* [None]: the call raised *)
| EvSleep (seconds : nat)
| EvOpenWrite (path : str)
| EvWriterow (row : list str)
| EvWriterows (rows : list (list str))
| EvPrint (msg : str).

(** Characters the CSV writer treats specially. *)
Definition dquote : ascii := "034"%char.
Definition comma : ascii := ","%char.
Definition CR : ascii := "013"%char.
Definition LF : ascii := "010"%char.

(** [csv.writer] with the default dialect (excel): comma separated,
    minimal quoting with the quote character doubled, CRLF after each
    record; a record made of one empty field is written quoted. *)
Definition needs_quote (c : ascii) : bool :=
  Ascii.eqb c comma || Ascii.eqb c dquote || Ascii.eqb c CR || Ascii.eqb c LF.

Definition csv_field (only_field : bool) (f : str) : str :=
  let body :=
    flat_map (fun c => if Ascii.eqb c dquote then [dquote; dquote] else [c]) f in
  if existsb needs_quote f || (only_field && negb (truthy f))
  then dquote :: body ++ [dquote]
  else body.

Definition csv_record (row : list str) : str :=
  join [comma] (map (csv_field (length row =? 1)) row) ++ [CR; LF].

Definition header : list str :=
  [lit "Original Product"; lit "Guessed Product"; lit "Review";
   lit "Sentiment"; lit "Reply"].

Definition default_delimiter : str := lit "---END OF REVIEW---".

Section Pipeline.

Context {R : Remote}.

(** The message of the [OSError] that [open] raises for a path. *)
Variable os_error_text : str -> str.

(** The file store (path to the characters of the file, [None] when the
    path cannot be opened for reading), which paths can be opened for
    writing, the state of the chat session, and the effects so far,
    oldest first. *)
Record World : Type := {
  files : str -> option str;
  writable : str -> bool;
  chat : Session;
  trace : list Event
}.

Definition M (A : Type) : Type := World -> result RemoteErr A * World.

Definition ret {A} (a : A) : M A := fun w => (Ok a, w).

Definition raise {A} (e : Exn RemoteErr) : M A := fun w => (Raise e, w).

Definition bind {A B} (c : M A) (k : A -> M B) : M B :=
  fun w =>
    match c w with
    | (Ok a, w') => k a w'
    | (Raise e, w') => (Raise e, w')
    end.

Notation "x <- c ;; k" := (bind c (fun x => k))
  (at level 61, c at next level, right associativity).
Notation "' pat <- c ;; k" := (bind c (fun x => match x with pat => k end))
  (at level 61, pat pattern, c at next level, right associativity).

Definition emit (e : Event) (w : World) : World :=
  {| files := files w; writable := writable w; chat := chat w;
     trace := trace w ++ [e] |}.

(** [str(e)] for the exceptions of the run. *)
Definition exn_text (e : Exn RemoteErr) : str :=
  match e with
  | OSError p => os_error_text p
  | ValueError msg => msg
  | IndexError => lit "list index out of range"
  | RemoteError r => remote_error_text r
  end.

(** The text [file.read()] yields for a file opened with
    [open(path, 'r')]. *)
Definition read_text (w : World) (path : str) : option str :=
  option_map universal_newlines (files w path).

(** [open(path, 'r')] followed by [file.read()].  A file that opens is
    one whose characters [files] gives: the model covers the runs in
    which the bytes of the file decode, a decoding error of [read()] is
    outside it. *)
Definition read_file (path : str) : M str :=
  fun w =>
    match read_text w path with
    | Some text => (Ok text, w)
    | None => (Raise (OSError path), w)
    end.

(** [s.split(sep)]: an empty separator is a [ValueError]. *)
Definition py_split (s sep : str) : M (list str) :=
  if truthy sep then ret (split_all sep s)
  else raise (ValueError (lit "empty separator")).

(** [xs[i]] on a list: out of range is an [IndexError]. *)
Definition index {A} (xs : list A) (i : nat) : M A :=
  match nth_error xs i with
  | Some x => ret x
  | None => raise IndexError
  end.

(** [chat_session.send_message(prompt).text] *)
Definition send (prompt : str) : M str :=
  fun w =>
    let '(r, s') := send_message (chat w) prompt in
    match r with
    | inr text =>
        (Ok text,
         {| files := files w; writable := writable w; chat := s';
            trace := trace w ++ [EvSend prompt (Some text)] |})
    | inl e =>
        (Raise (RemoteError e),
         {| files := files w; writable := writable w; chat := s';
            trace := trace w ++ [EvSend prompt None] |})
    end.

(** [time.sleep(seconds)] *)
Definition sleep (seconds : nat) : M unit :=
  fun w => (Ok tt, emit (EvSleep seconds) w).

Definition set_file (path text : str) (w : World) : World :=
  {| files := fun p => if str_eqb p path then Some text else files w p;
     writable := writable w; chat := chat w; trace := trace w |}.

(** [open(path, 'w', newline='', encoding='utf-8')]: the file is created
    or truncated. *)
Definition open_write (path : str) : M unit :=
  fun w =>
    if writable w path
    then (Ok tt, emit (EvOpenWrite path) (set_file path [] w))
    else (Raise (OSError path), w).

Definition append_file (path text : str) (w : World) : World :=
  match files w path with
  | Some old => set_file path (old ++ text) w
  | None => set_file path text w
  end.

(** [writer.writerow(row)] on the writer of the file at [path].  The
    model covers the runs in which a file that has opened for writing
    takes what is written to it: a failure of the write itself is
    outside it. *)
Definition writerow (path : str) (row : list str) : M unit :=
  fun w => (Ok tt, emit (EvWriterow row) (append_file path (csv_record row) w)).

(** [writer.writerows(rows)] *)
Definition writerows (path : str) (rows : list (list str)) : M unit :=
  fun w =>
    (Ok tt,
     emit (EvWriterows rows)
          (append_file path (concat (map csv_record rows)) w)).

(* ================================================================== *)
(** ** The functions of the program *)
(* ================================================================== *)

(** [read_reviews(file_path, delimiter)] *)
Definition read_reviews (file_path delimiter : str) : M (list str) :=
  text <- read_file file_path ;;
  reviews <- py_split text delimiter ;;
  ret (map strip (filter (fun review => truthy (strip review)) reviews)).

(** One turn of the [for line in ...] loop of [extract_review_info]. *)
Definition extract_line (fields : str * str) (line : str) : M (str * str) :=
  let '(product, review_text) := fields in
  if startswith (lit "Product:") line then
    part <- index (split_count 1 (lit ":") line) 1 ;;
    ret (strip part, review_text)
  else if startswith (lit "Review:") line then
    part <- index (split_count 1 (lit ":") line) 1 ;;
    ret (product, strip part)
  else ret (product, review_text).

Fixpoint extract_lines (fields : str * str) (lines : list str)
  : M (str * str) :=
  match lines with
  | [] => ret fields
  | line :: rest =>
      fields' <- extract_line fields line ;;
      extract_lines fields' rest
  end.

(** [extract_review_info(review)] *)
Definition extract_review_info (review : str) : M (str * str) :=
  lines <- py_split review [LF] ;;
  extract_lines ([], []) lines.

Definition sentiment_prompt (review_text : str) : str :=
  lit "Categorize the sentiment in one word of this review in Positive/Negative/Neutral: "
  ++ review_text.

Definition reply_prompt (review_text sentiment : str) : str :=
  lit "Add a 40 words reply to this review: " ++ review_text
  ++ lit " as per sentiment " ++ sentiment.

Definition guess_prompt (review_text : str) : str :=
  lit "Guess the product name based on this review in one word: "
  ++ review_text.

(** [analyze_sentiment(review_text, chat_session)] *)
Definition analyze_sentiment (review_text : str) : M (str * str) :=
  sentiment_response <- send (sentiment_prompt review_text) ;;
  let sentiment := lower sentiment_response in
  reply_response <- send (reply_prompt review_text sentiment) ;;
  let reply := reply_response in
  ret (sentiment, reply).

(** [guess_product(review_text, chat_session)] *)
Definition guess_product (review_text : str) : M str :=
  product_response <- send (guess_prompt review_text) ;;
  ret (strip product_response).

(** [save_to_csv(data, csv_file)] *)
Definition save_to_csv (data : list (list str)) (csv_file : str) : M unit :=
  _ <- open_write csv_file ;;
  _ <- writerow csv_file header ;;
  writerows csv_file data.

(** The body of the [for review in reviews] loop of [process_reviews]:
    [data] is the list built so far, the result is the list after
    [data.append]. *)
Definition process_review (data : list (list str)) (review : str)
  : M (list (list str)) :=
  '(original_product, review_text) <- extract_review_info review ;;
  guessed_product <- guess_product review_text ;;
  '(sentiment, reply) <- analyze_sentiment review_text ;;
  let data' :=
    data ++ [[original_product; guessed_product; review_text; sentiment; reply]] in
  _ <- sleep 2 ;;
  ret data'.

Fixpoint process_loop (data : list (list str)) (reviews : list str)
  : M (list (list str)) :=
  match reviews with
  | [] => ret data
  | review :: rest =>
      data' <- process_review data review ;;
      process_loop data' rest
  end.

(** [process_reviews(file_path, csv_file, chat_session, delimiter)] *)
Definition process_reviews (file_path csv_file delimiter : str) : M unit :=
  reviews <- read_reviews file_path delimiter ;;
  data <- process_loop [] reviews ;;
  save_to_csv data csv_file.

Definition reviews_path : str :=
  lit "C:\Users\Suresh\Desktop\pythonBl\Generative_AI\reviews.txt".

Definition csv_path : str := lit "transformed_reviews.csv".

(** What [main] leaves behind: the file store and the effects. *)
Record Outcome : Type := {
  out_files : str -> option str;
  out_trace : list Event
}.

Definition report (fs : str -> option str) (tr : list Event)
  (e : Exn RemoteErr) : Outcome :=
  {| out_files := fs;
     out_trace := tr ++ [EvPrint (lit "An error occurred: " ++ exn_text e)] |}.

(** [main()], given the value of [os.getenv('GEMINI_API_KEY')] after
    [load_dotenv()] and the file store with its write permissions. *)
Definition main (api_key : option str) (fs : str -> option str)
  (wr : str -> bool) : Outcome :=
  match api_key with
  | None =>
      report fs [] (ValueError (lit "API key not found in environment variables."))
  | Some key =>
      if negb (truthy key) then
        report fs [] (ValueError (lit "API key not found in environment variables."))
      else
        match start_chat key with
        | inl e => report fs [] (RemoteError e)
        | inr chat_session =>
            let w0 := {| files := fs; writable := wr; chat := chat_session;
                         trace := [] |} in
            match process_reviews reviews_path csv_path default_delimiter w0 with
            | (Ok _, w) => {| out_files := files w; out_trace := trace w |}
            | (Raise e, w) => report (files w) (trace w) e
            end
        end
  end.

End Pipeline.

(* ================================================================== *)
(** ** The claims' own vocabulary *)
(* ================================================================== *)

(** The review blobs as the specification words them: split the file
    contents on the delimiter, strip each segment, discard the segments
    that are empty after stripping. *)
Definition spec_blobs (text delimiter : str) : list str :=
  filter truthy (map strip (split_all delimiter text)).

(** The text after the first colon of a line. *)
Fixpoint after_first_colon (line : str) : str :=
  match line with
  | [] => []
  | c :: rest => if Ascii.eqb c ":"%char then rest else after_first_colon rest
  end.

(** The two labelled fields of a review blob. *)
Inductive Label : Type := Product | Review.

Definition label_prefix (l : Label) : str :=
  match l with
  | Product => lit "Product:"
  | Review => lit "Review:"
  end.

Definition field (l : Label) (fields : str * str) : str :=
  match l with
  | Product => fst fields
  | Review => snd fields
  end.

(** The extractor as the specification words it, one field at a time:
    scanning the lines in order, a line beginning with the label sets the
    field to the trimmed text after the first colon, any other line
    leaves it alone, and the field starts out empty. *)
Definition spec_scan (l : Label) (value line : str) : str :=
  if startswith (label_prefix l) line then strip (after_first_colon line)
  else value.

Definition spec_field (l : Label) (lines : list str) : str :=
  fold_left (spec_scan l) lines [].

(** Events of the CSV writer. *)
Definition writer_event (e : Event) : bool :=
  match e with
  | EvOpenWrite _ | EvWriterow _ | EvWriterows _ => true
  | _ => false
  end.

(** [quiet w w']: from [w] to [w'] no file changed and the CSV writer
    was not touched. *)
Definition quiet {R : Remote} (w w' : World) : Prop :=
  files w' = files w /\ writable w' = writable w /\
  exists evs, trace w' = trace w ++ evs /\
              Forall (fun ev => writer_event ev = false) evs.

Definition Quiet {R : Remote} {A} (c : M A) : Prop :=
  forall w r w', c w = (r, w') -> quiet w w'.

(** [row_of review row]: [row] is an output row for [review], its first
    and third fields being what the extractor returns for the blob. *)
Definition row_of {R : Remote} (review : str) (row : list str) : Prop :=
  exists original_product review_text guessed_product sentiment reply,
    (forall w : World,
        extract_review_info review w = (Ok (original_product, review_text), w))
    /\ row = [original_product; guessed_product; review_text; sentiment; reply].

(** The world after one call of [send_message] that answered [text]. *)
Definition answered {R : Remote} (w : World) (prompt text : str) (s : Session)
  : World :=
  {| files := files w; writable := writable w; chat := s;
     trace := trace w ++ [EvSend prompt (Some text)] |}.

(** The world after [save_to_csv] has written [data] to [csv_file]. *)
Definition saved {R : Remote} (data : list (list str)) (csv_file : str) (w : World) : World :=
  emit (EvWriterows data)
    (append_file csv_file (concat (map csv_record data))
       (emit (EvWriterow header)
          (append_file csv_file (csv_record header)
             (emit (EvOpenWrite csv_file) (set_file csv_file [] w))))).

(** Counting the effects of a run: the remote calls made, and the
    seconds slept. *)
Definition is_send (e : Event) : bool :=
  match e with EvSend _ _ => true | _ => false end.

Definition sends (evs : list Event) : nat := length (filter is_send evs).

Fixpoint slept (evs : list Event) : nat :=
  match evs with
  | [] => 0
  | EvSleep seconds :: rest => seconds + slept rest
  | _ :: rest => slept rest
  end.

(** The effects of a loop that has not failed: answered calls and
    sleeps. *)
Definition calm (e : Event) : bool :=
  match e with
  | EvSend _ (Some _) | EvSleep _ => true
  | _ => false
  end.


(** A review that can stand in an input file: not empty, no blank at
    either end, and the delimiter starts nowhere on its lines. *)
Definition well_formed_review (delimiter review : str) : Prop :=
  truthy review = true
  /\ strip review = review
  /\ occurs delimiter (LF :: review ++ LF :: removelast delimiter) = false.

(** An input file in the documented layout: each review on its lines,
    then the delimiter on a line of its own. *)
Definition format_reviews (delimiter : str) (reviews : list str) : str :=
  flat_map (fun review => review ++ [LF] ++ delimiter ++ [LF]) reviews.

(* ================================================================== *)
(** ** A scripted remote service, for concrete runs *)
(* ================================================================== *)

(** The session is the list of responses still to come; each call takes
    the next one, whatever the prompt, and a call past the end raises. *)
Definition scripted (script : list (str + str)) : Remote :=
  {| Session := list (str + str);
     RemoteErr := str;
     send_message := fun s _ =>
       match s with
       | [] => (inl (lit "no response"), [])
       | r :: s' => (r, s')
       end;
     start_chat := fun _ => inr script;
     remote_error_text := fun e => e |}.

(** A file store holding one file. *)
Definition one_file (path text : str) : str -> option str :=
  fun p => if str_eqb p path then Some text else None.

Definition two_reviews : str :=
  lit "Product: Toaster" ++ [LF] ++ lit "Review: Works great" ++ [LF]
  ++ default_delimiter ++ [LF]
  ++ lit "Product: Mug" ++ [LF] ++ lit "Review: Broke fast" ++ [LF].

Definition happy_script : list (str + str) :=
  [inr (lit " Toaster "); inr (lit "Positive"); inr (lit "Thank you!");
   inr (lit "Mug"); inr (lit "NEGATIVE"); inr (lit "We are sorry.")].

Definition world_of (R : Remote) (fs : str -> option str) (s : @Session R)
  : @World R :=
  {| files := fs; writable := fun _ => true; chat := s; trace := [] |}.

Definition in_path : str := lit "reviews.txt".
Definition out_path : str := lit "out.csv".

Definition blob_toaster : str :=
  lit "Product: Toaster" ++ [LF] ++ lit "Review: Works great".

Definition blob_mug : str :=
  lit "Product: Mug" ++ [LF] ++ lit "Review: Broke fast".

Definition row_toaster : list str :=
  [lit "Toaster"; lit "Toaster"; lit "Works great"; lit "positive";
   lit "Thank you!"].

(** Every call is answered. *)
Definition happy_remote : Remote := scripted happy_script.

Definition happy_world : @World happy_remote :=
  world_of happy_remote (one_file in_path two_reviews) happy_script.

(** The sentiment call of the second review raises. *)
Definition failing_script : list (str + str) :=
  [inr (lit " Toaster "); inr (lit "Positive"); inr (lit "Thank you!");
   inr (lit "Mug"); inl (lit "quota exceeded")].

Definition failing_remote : Remote := scripted failing_script.

Definition failing_world : @World failing_remote :=
  world_of failing_remote (one_file in_path two_reviews) failing_script.

(** A file in which the delimiter stands in the middle of a line. *)
Definition midline_text : str :=
  lit "Review: good " ++ default_delimiter ++ lit " and more".

Definition midline_world : @World happy_remote :=
  world_of happy_remote (one_file in_path midline_text) happy_script.

Definition row_mug : list str :=
  [lit "Mug"; lit "Mug"; lit "Broke fast"; lit "negative";
   lit "We are sorry."].

(** A file of blanks only. *)
Definition blank_text : str := lit "  " ++ [LF] ++ lit " " ++ [LF].

Definition blank_world : @World happy_remote :=
  world_of happy_remote (one_file in_path blank_text) happy_script.

(** The two-review file, with no path that can be written. *)
Definition readonly_world : @World happy_remote :=
  @Build_World happy_remote (one_file in_path two_reviews) (fun _ => false)
    happy_script [].

(** The two reviews in the documented layout. *)
Definition formatted_world : @World happy_remote :=
  world_of happy_remote
    (one_file in_path (format_reviews default_delimiter [blob_toaster; blob_mug]))
    happy_script.

(** A blob with no [Review:] line. *)
Definition blob_no_review : str := lit "Product: Kettle".

(** A blob with two [Product:] lines. *)
Definition blob_two_products : str :=
  lit "Product: Kettle" ++ [LF] ++ lit "Product: Lamp" ++ [LF]
  ++ lit "Review: Fine".

(* ================================================================== *)
(** ** Facts about the string operations *)
(* ================================================================== *)

Module PyStrFacts.

Lemma truthy_nonempty (s : str) : truthy s = true <-> s <> [].
Proof.
  destruct s; simpl; split; intro H; try discriminate; try reflexivity.
  now contradiction H.
Qed.

Lemma truthy_length (s : str) : truthy s = true -> 0 < length s.
Proof. destruct s; simpl; [discriminate | lia]. Qed.

Lemma startswith_app (p t : str) : startswith p (p ++ t) = true.
Proof.
  induction p as [|a p IH]; simpl; [reflexivity|].
  now rewrite Ascii.eqb_refl, IH.
Qed.

Lemma startswith_inv (p s : str) :
  startswith p s = true -> s = p ++ skipn (length p) s.
Proof.
  revert s; induction p as [|a p IH]; intros [|b s] H; simpl in *;
    try reflexivity; try discriminate.
  apply andb_true_iff in H as [Hab Hps].
  apply Ascii.eqb_eq in Hab; subst b.
  f_equal; now apply IH.
Qed.

Lemma startswith_skipn_app (p t : str) : skipn (length p) (p ++ t) = t.
Proof. induction p; simpl; auto. Qed.

(** A prefix test that succeeds keeps succeeding on a longer subject. *)
Lemma startswith_extend (p s t : str) :
  startswith p s = true -> startswith p (s ++ t) = true.
Proof.
  revert s; induction p as [|a p IH]; intros [|b s] H; simpl in *;
    try reflexivity; try discriminate.
  apply andb_true_iff in H as [Hab Hps].
  rewrite Hab; simpl; now apply IH.
Qed.

(** A prefix test only looks at the first [length p] characters. *)
Lemma startswith_shorten (p s t : str) :
  startswith p (s ++ t) = true -> length p <= length s ->
  startswith p s = true.
Proof.
  revert s; induction p as [|a p IH]; intros [|b s] H Hlen; simpl in *;
    try reflexivity; try lia.
  apply andb_true_iff in H as [Hab Hps].
  rewrite Hab; simpl; apply IH; [assumption | lia].
Qed.

Lemma find_first_nil (sep : str) : truthy sep = true -> find_first sep [] = None.
Proof. destruct sep; simpl; [discriminate | reflexivity]. Qed.

(** The cut found is a cut of [s], and the text before it holds no
    occurrence of the separator. *)
Lemma find_first_Some (sep s a b : str) :
  truthy sep = true ->
  find_first sep s = Some (a, b) ->
  s = a ++ sep ++ b /\ find_first sep a = None.
Proof.
  intros Hsep; revert a b; induction s as [|c s IH]; intros a b H.
  - rewrite find_first_nil in H by assumption; discriminate.
  - simpl in H. destruct (startswith sep (c :: s)) eqn:Hsw.
    + inversion H; subst a b; clear H. split.
      * simpl; now apply startswith_inv.
      * now apply find_first_nil.
    + destruct (find_first sep s) as [[a' b']|] eqn:Hf; [|discriminate].
      inversion H; subst a b; clear H.
      destruct (IH a' b' eq_refl) as [Hs Ha']. split.
      * simpl; now f_equal.
      * simpl. destruct (startswith sep (c :: a')) eqn:Hsw'.
        -- apply startswith_extend with (t := sep ++ b') in Hsw'.
           simpl in Hsw'. rewrite <- Hs in Hsw'.
           simpl in Hsw. congruence.
        -- now rewrite Ha'.
Qed.

Lemma find_first_shorter (sep s a b : str) :
  truthy sep = true ->
  find_first sep s = Some (a, b) -> length b < length s.
Proof.
  intros Hsep H. destruct (find_first_Some _ _ _ _ Hsep H) as [-> _].
  apply truthy_length in Hsep. rewrite !length_app. lia.
Qed.

(** [occurs] is the substring relation. *)
Lemma find_first_unfold (sep s : str) :
  find_first sep s =
  if startswith sep s then Some ([], skipn (length sep) s)
  else
    match s with
    | [] => None
    | c :: s' =>
        match find_first sep s' with
        | Some (a, b) => Some (c :: a, b)
        | None => None
        end
    end.
Proof. destruct s; reflexivity. Qed.

Lemma occurs_app (sep a b : str) : occurs sep (a ++ sep ++ b) = true.
Proof.
  unfold occurs. induction a as [|c a IH].
  - cbn [app]. rewrite find_first_unfold, startswith_app. reflexivity.
  - cbn [app]. rewrite find_first_unfold.
    destruct (startswith sep (c :: a ++ sep ++ b)); [reflexivity|].
    destruct (find_first sep (a ++ sep ++ b)) as [[a' b']|];
      [reflexivity | discriminate].
Qed.

Lemma occurs_true (sep s : str) :
  truthy sep = true ->
  occurs sep s = true <-> exists a b, s = a ++ sep ++ b.
Proof.
  intro Hsep; split.
  - unfold occurs. destruct (find_first sep s) as [[a b]|] eqn:Hf;
      [|discriminate].
    intros _. exists a, b. now apply (find_first_Some _ _ _ _ Hsep Hf).
  - intros (a & b & ->). apply occurs_app.
Qed.

Lemma occurs_false_middle (sep l m r : str) :
  truthy sep = true ->
  occurs sep (l ++ m ++ r) = false -> occurs sep m = false.
Proof.
  intros Hsep H. destruct (occurs sep m) eqn:Hm; [|reflexivity].
  apply (occurs_true _ _ Hsep) in Hm as (a & b & ->).
  replace (l ++ (a ++ sep ++ b) ++ r) with ((l ++ a) ++ sep ++ (b ++ r)) in H
    by now rewrite <- !app_assoc.
  now rewrite occurs_app in H.
Qed.

Lemma lstrip_suffix (s : str) : exists l, s = l ++ lstrip s.
Proof.
  induction s as [|c s [l IH]]; simpl.
  - now exists [].
  - destruct (isspace c).
    + exists (c :: l); simpl; now f_equal.
    + now exists [].
Qed.

Lemma rstrip_prefix (s : str) : exists r, s = rstrip s ++ r.
Proof.
  unfold rstrip. destruct (lstrip_suffix (rev s)) as [l Hl].
  exists (rev l). rewrite <- rev_app_distr, <- Hl. now rewrite rev_involutive.
Qed.

(** Stripping yields a segment of the string. *)
Lemma strip_segment (s : str) : exists l r, s = l ++ strip s ++ r.
Proof.
  unfold strip. destruct (lstrip_suffix s) as [l Hl].
  destruct (rstrip_prefix (lstrip s)) as [r Hr].
  exists l, r. now rewrite <- Hr.
Qed.

Lemma occurs_strip (sep s : str) :
  truthy sep = true -> occurs sep s = false -> occurs sep (strip s) = false.
Proof.
  intros Hsep H. destruct (strip_segment s) as (l & r & Hs).
  rewrite Hs in H. now apply occurs_false_middle in H.
Qed.

(** Once the limit is at least the length of the string, a larger limit
    changes nothing: [split_all] is the split without limit. *)
Lemma split_count_saturates (sep : str) (n m : nat) (s : str) :
  truthy sep = true -> length s <= n -> length s <= m ->
  split_count n sep s = split_count m sep s.
Proof.
  intro Hsep; revert m s; induction n as [|n IH]; intros m s Hn Hm.
  - destruct s; [|simpl in Hn; lia].
    destruct m; cbn [split_count]; [reflexivity|].
    now rewrite find_first_nil.
  - destruct m as [|m].
    + destruct s; [|simpl in Hm; lia].
      cbn [split_count]. now rewrite find_first_nil.
    + cbn [split_count]. destruct (find_first sep s) as [[a b]|] eqn:Hf; [|reflexivity].
      pose proof (find_first_shorter _ _ _ _ Hsep Hf).
      f_equal. apply IH; lia.
Qed.

(** No piece of an unlimited split holds the separator. *)
Lemma split_count_pieces_free (sep : str) (n : nat) (s piece : str) :
  truthy sep = true -> length s <= n ->
  In piece (split_count n sep s) -> occurs sep piece = false.
Proof.
  intro Hsep; revert s; induction n as [|n IH]; intros s Hn Hin.
  - destruct s; [|simpl in Hn; lia].
    cbn [split_count In] in Hin. destruct Hin as [<-|[]].
    unfold occurs. now rewrite find_first_nil.
  - cbn [split_count] in Hin. destruct (find_first sep s) as [[a b]|] eqn:Hf.
    + destruct Hin as [<-|Hin].
      * unfold occurs. now rewrite (proj2 (find_first_Some _ _ _ _ Hsep Hf)).
      * pose proof (find_first_shorter _ _ _ _ Hsep Hf).
        apply (IH b); [lia | assumption].
    + destruct Hin as [<-|[]]. unfold occurs. now rewrite Hf.
Qed.

(** Gluing the pieces back with the separator restores the string. *)
Lemma join_split_count (sep : str) (n : nat) (s : str) :
  truthy sep = true -> join sep (split_count n sep s) = s.
Proof.
  intro Hsep; revert s; induction n as [|n IH]; intro s; cbn [split_count].
  - reflexivity.
  - destruct (find_first sep s) as [[a b]|] eqn:Hf; [|reflexivity].
    destruct (find_first_Some _ _ _ _ Hsep Hf) as [-> _].
    specialize (IH b). cbn [join].
    destruct (split_count n sep b) eqn:Hsp.
    + destruct n; cbn [split_count] in Hsp; [discriminate|].
      destruct (find_first sep b) as [[? ?]|]; discriminate.
    + now rewrite IH.
Qed.

(** The leftmost occurrence: when the separator does not occur in [pre]
    followed by all but the last character of the separator, the first
    cut of [pre ++ sep ++ post] is exactly there. *)
Lemma find_first_at (sep pre post : str) :
  truthy sep = true ->
  occurs sep (pre ++ removelast sep) = false ->
  find_first sep (pre ++ sep ++ post) = Some (pre, post).
Proof.
  intros Hsep; induction pre as [|c pre IH]; intro Hfree.
  - cbn [app].
    rewrite find_first_unfold, startswith_app, startswith_skipn_app.
    reflexivity.
  - cbn [app] in *. unfold occurs in Hfree.
    rewrite find_first_unfold in Hfree. rewrite find_first_unfold.
    destruct (startswith sep (c :: pre ++ removelast sep)) eqn:Hsw;
      [discriminate|].
    destruct (startswith sep (c :: pre ++ sep ++ post)) eqn:Hsw2.
    + exfalso.
      assert (Hne : sep <> []) by now apply truthy_nonempty.
      pose proof (app_removelast_last c Hne) as Hlast.
      assert (Hlen : length sep = S (length (removelast sep))).
      { rewrite Hlast at 1. rewrite length_app; simpl; lia. }
      remember (removelast sep) as r eqn:Er.
      remember (last sep c) as l eqn:El.
      replace (c :: pre ++ sep ++ post) with ((c :: pre ++ r) ++ (l :: post))
        in Hsw2.
      * apply startswith_shorten in Hsw2; [congruence|].
        simpl. rewrite length_app. lia.
      * rewrite Hlast. simpl. now rewrite <- !app_assoc.
    + rewrite IH; [reflexivity|].
      unfold occurs.
      destruct (find_first sep (pre ++ removelast sep)) as [[? ?]|];
        [discriminate | reflexivity].
Qed.

(** Filtering before or after stripping gives the same blobs. *)
Lemma strip_filter_commute (segments : list str) :
  map strip (filter (fun review => truthy (strip review)) segments)
  = filter truthy (map strip segments).
Proof.
  induction segments as [|x xs IH]; simpl; [reflexivity|].
  destruct (truthy (strip x)); simpl; now rewrite IH.
Qed.

Lemma lower_char_idempotent (c : ascii) :
  lower_char (lower_char c) = lower_char c.
Proof.
  destruct c as [[] [] [] [] [] [] [] []]; vm_compute; reflexivity.
Qed.

Lemma lower_idempotent (s : str) : lower (lower s) = lower s.
Proof.
  unfold lower. rewrite map_map. apply map_ext. apply lower_char_idempotent.
Qed.

(* ------------------------------------------------------------------ *)
(** *** Stripping, blank strings, single characters *)

Lemma lstrip_idempotent (s : str) : lstrip (lstrip s) = lstrip s.
Proof.
  induction s as [|c s IH]; [reflexivity|].
  cbn [lstrip]. destruct (isspace c) eqn:E; [exact IH|].
  cbn [lstrip]. now rewrite E.
Qed.

Lemma rstrip_idempotent (s : str) : rstrip (rstrip s) = rstrip s.
Proof.
  unfold rstrip. now rewrite rev_involutive, lstrip_idempotent.
Qed.

(** Leading blanks go, a character that is not blank stops the scan. *)
Lemma lstrip_app_nonspace (u : str) (c : ascii) (v : str) :
  isspace c = false -> lstrip (u ++ c :: v) = lstrip u ++ c :: v.
Proof.
  intro Hc. induction u as [|a u IH]; cbn [app lstrip].
  - now rewrite Hc.
  - destruct (isspace a); [exact IH | reflexivity].
Qed.

Lemma rstrip_cons_nonspace (c : ascii) (s : str) :
  isspace c = false -> rstrip (c :: s) = c :: rstrip s.
Proof.
  intro Hc. unfold rstrip. cbn [rev].
  rewrite (lstrip_app_nonspace (rev s) c [] Hc).
  rewrite rev_app_distr. reflexivity.
Qed.

(** A string that [lstrip] leaves alone is empty or starts with a
    character that is not blank. *)
Lemma lstrip_fixed_head (c : ascii) (s : str) :
  lstrip (c :: s) = c :: s -> isspace c = false.
Proof.
  cbn [lstrip]. destruct (isspace c); [|reflexivity].
  intro H. exfalso.
  destruct (lstrip_suffix s) as [l Hl].
  assert (Hlen : length s = length l + length (lstrip s))
    by (rewrite Hl at 1; apply length_app).
  rewrite H in Hlen. simpl in Hlen. lia.
Qed.

Lemma lstrip_rstrip_fixed (s : str) :
  lstrip s = s -> lstrip (rstrip s) = rstrip s.
Proof.
  destruct s as [|c s]; [reflexivity|].
  intro H. pose proof (lstrip_fixed_head c s H) as Hc.
  rewrite (rstrip_cons_nonspace c s Hc). cbn [lstrip]. now rewrite Hc.
Qed.

(** Stripping twice is stripping once. *)
Lemma strip_idempotent (s : str) : strip (strip s) = strip s.
Proof.
  unfold strip.
  rewrite (lstrip_rstrip_fixed (lstrip s) (lstrip_idempotent s)).
  apply rstrip_idempotent.
Qed.

Lemma lstrip_blank (s : str) :
  Forall (fun c => isspace c = true) s -> lstrip s = [].
Proof.
  induction 1 as [|c s Hc _ IH]; [reflexivity|].
  cbn [lstrip]. now rewrite Hc.
Qed.

(** A string of blanks strips to nothing. *)
Lemma strip_blank (s : str) :
  Forall (fun c => isspace c = true) s -> strip s = [].
Proof. intro H. unfold strip. now rewrite (lstrip_blank s H). Qed.

(** Every character of a piece is a character of the string split. *)
Lemma split_count_pieces_chars (P : ascii -> Prop) (sep : str) (n : nat)
  (s piece : str) :
  truthy sep = true ->
  Forall P s -> In piece (split_count n sep s) -> Forall P piece.
Proof.
  intro Hsep; revert s; induction n as [|n IH]; intros s Hs Hin.
  - cbn [split_count In] in Hin. destruct Hin as [<-|[]]. exact Hs.
  - cbn [split_count] in Hin.
    destruct (find_first sep s) as [[a b]|] eqn:Hf.
    + destruct (find_first_Some _ _ _ _ Hsep Hf) as [-> _].
      apply Forall_app in Hs as [Ha Hs]. apply Forall_app in Hs as [_ Hb].
      destruct Hin as [<-|Hin]; [exact Ha | now apply (IH b)].
    + destruct Hin as [<-|[]]. exact Hs.
Qed.

(** A one-character separator occurs exactly where the character is. *)
Lemma occurs_char_false (c : ascii) (s : str) :
  occurs [c] s = false -> ~ In c s.
Proof.
  intros H Hin. apply in_split in Hin as (a & b & ->).
  change (a ++ c :: b) with (a ++ [c] ++ b) in H.
  now rewrite occurs_app in H.
Qed.

Lemma strip_keeps_out (c : ascii) (s : str) : ~ In c s -> ~ In c (strip s).
Proof.
  intros H Hin. apply H. destruct (strip_segment s) as (l & r & Hs).
  rewrite Hs. apply in_or_app. right. apply in_or_app. now left.
Qed.

Lemma lstrip_length (s : str) : length (lstrip s) <= length s.
Proof.
  destruct (lstrip_suffix s) as [l Hl].
  rewrite Hl at 2. rewrite length_app. lia.
Qed.

Lemma rstrip_length (s : str) : length (rstrip s) <= length s.
Proof.
  unfold rstrip. rewrite length_rev.
  etransitivity; [apply lstrip_length|]. now rewrite length_rev.
Qed.

(** A string that [strip] leaves alone is left alone by each half. *)
Lemma strip_fixed_parts (s : str) :
  strip s = s -> lstrip s = s /\ rstrip s = s.
Proof.
  intro H. unfold strip in H.
  assert (Hl : lstrip s = s).
  { destruct (lstrip_suffix s) as [l Hl].
    pose proof (rstrip_length (lstrip s)) as Hlen. rewrite H in Hlen.
    assert (Hll : length s = length l + length (lstrip s))
      by (rewrite Hl at 1; apply length_app).
    destruct l as [|c l]; [exact (eq_sym Hl)|]. simpl in Hll. lia. }
  split; [exact Hl|]. now rewrite Hl in H.
Qed.

Lemma rstrip_app_blank (s : str) (c : ascii) :
  isspace c = true -> rstrip (s ++ [c]) = rstrip s.
Proof.
  intro Hc. unfold rstrip. rewrite rev_app_distr. cbn [rev app lstrip].
  now rewrite Hc.
Qed.

(** Blanks put around a stripped, non-empty string strip away again. *)
Lemma strip_padded (c1 c2 : ascii) (s : str) :
  isspace c2 = true -> truthy s = true -> strip s = s ->
  strip (s ++ [c2]) = s
  /\ (isspace c1 = true -> strip (c1 :: s ++ [c2]) = s).
Proof.
  intros H2 Hne Hs. destruct (strip_fixed_parts s Hs) as [Hl Hr].
  destruct s as [|c s]; [discriminate|].
  pose proof (lstrip_fixed_head c s Hl) as Hc.
  assert (E : strip ((c :: s) ++ [c2]) = c :: s).
  { unfold strip. cbn [app lstrip]. rewrite Hc.
    change (c :: s ++ [c2]) with ((c :: s) ++ [c2]).
    now rewrite rstrip_app_blank. }
  split; [exact E|].
  intro H1. unfold strip in *. cbn [lstrip]. rewrite H1. exact E.
Qed.

(** What [lstrip] removes are blanks, and so for [rstrip], [strip]. *)
Lemma lstrip_blank_prefix (s : str) :
  exists l, s = l ++ lstrip s /\ Forall (fun c => isspace c = true) l.
Proof.
  induction s as [|c s (l & IH & Hl)]; cbn [lstrip].
  - exists []. split; [reflexivity | constructor].
  - destruct (isspace c) eqn:Hc.
    + exists (c :: l). split; [cbn [app]; now f_equal | now constructor].
    + exists []. split; [reflexivity | constructor].
Qed.

Lemma rstrip_blank_suffix (s : str) :
  exists r, s = rstrip s ++ r /\ Forall (fun c => isspace c = true) r.
Proof.
  unfold rstrip. destruct (lstrip_blank_prefix (rev s)) as (l & Hl & Hb).
  exists (rev l). split.
  - rewrite <- rev_app_distr, <- Hl. now rewrite rev_involutive.
  - now apply Forall_rev.
Qed.

Lemma strip_blank_segment (s : str) :
  exists l r, s = l ++ strip s ++ r
              /\ Forall (fun c => isspace c = true) l
              /\ Forall (fun c => isspace c = true) r.
Proof.
  unfold strip. destruct (lstrip_blank_prefix s) as (l & Hl & Hbl).
  destruct (rstrip_blank_suffix (lstrip s)) as (r & Hr & Hbr).
  exists l, r. split; [now rewrite <- Hr | now split].
Qed.

(** Lowercasing leaves a blank as it is. *)
Lemma lower_char_blank (c : ascii) : isspace c = true -> lower_char c = c.
Proof.
  destruct c as [[] [] [] [] [] [] [] []]; vm_compute; intro H;
    first [reflexivity | discriminate H].
Qed.

Lemma lower_blank (s : str) :
  Forall (fun c => isspace c = true) s -> lower s = s.
Proof.
  induction 1 as [|c s Hc _ IH]; [reflexivity|].
  cbn [lower map]. fold (lower s). now rewrite (lower_char_blank c Hc), IH.
Qed.

(** Text without a carriage return is read as it stands. *)
Lemma universal_newlines_without_CR (s : str) :
  ~ In "013"%char s -> universal_newlines s = s.
Proof.
  induction s as [|c s IH]; intro H; [reflexivity|].
  cbn [universal_newlines].
  destruct (Ascii.eqb_spec c "013"%char) as [->|_].
  - exfalso. apply H. now left.
  - f_equal. apply IH. intro Hin. apply H. now right.
Qed.

End PyStrFacts.
Import PyStrFacts.

(* ================================================================== *)
(** ** Facts about the pipeline *)
(* ================================================================== *)

Section PipelineFacts.

Context {R : Remote}.

Variable os_error_text : str -> str.

Lemma quiet_refl (w : World) : quiet w w.
Proof.
  repeat split; exists []; split; [now rewrite app_nil_r | constructor].
Qed.

Lemma quiet_trans (w1 w2 w3 : World) : quiet w1 w2 -> quiet w2 w3 -> quiet w1 w3.
Proof.
  intros (Hf & Hw & e1 & Ht & Hq) (Hf' & Hw' & e2 & Ht' & Hq').
  repeat split; try congruence.
  exists (e1 ++ e2); split.
  - now rewrite Ht', Ht, app_assoc.
  - apply Forall_app; now split.
Qed.

Lemma quiet_emit (w : World) (ev : Event) :
  writer_event ev = false -> quiet w (emit ev w).
Proof.
  intro H. repeat split. exists [ev]; split; [reflexivity|].
  now constructor.
Qed.

Lemma Quiet_ret {A} (a : A) : Quiet (ret a).
Proof. intros w r w' H; inversion H; apply quiet_refl. Qed.

Lemma Quiet_raise {A} (e : Exn RemoteErr) : Quiet (@raise R A e).
Proof. intros w r w' H; inversion H; apply quiet_refl. Qed.

Lemma Quiet_bind {A B} (c : M A) (k : A -> M B) :
  Quiet c -> (forall a, Quiet (k a)) -> Quiet (bind c k).
Proof.
  intros Hc Hk w r w' H. unfold bind in H.
  destruct (c w) as [[a|e] w1] eqn:Hcw.
  - eapply quiet_trans; [eapply Hc | eapply Hk]; eassumption.
  - inversion H; subst. eapply Hc; eassumption.
Qed.

Lemma Quiet_read_file (path : str) : Quiet (read_file path).
Proof.
  intros w r w' H. unfold read_file in H.
  destruct (read_text w path); inversion H; apply quiet_refl.
Qed.

Lemma Quiet_py_split (s sep : str) : Quiet (py_split s sep).
Proof.
  unfold py_split. destruct (truthy sep); [apply Quiet_ret | apply Quiet_raise].
Qed.

Lemma Quiet_index {A} (xs : list A) (i : nat) : Quiet (index xs i).
Proof.
  unfold index. destruct (nth_error xs i); [apply Quiet_ret | apply Quiet_raise].
Qed.

Lemma Quiet_send (prompt : str) : Quiet (send prompt).
Proof.
  intros w r w' H. unfold send in H.
  destruct (send_message (chat w) prompt) as [[e|text] s'];
    inversion H; subst; repeat split; simpl;
    eexists; (split; [reflexivity | now repeat constructor]).
Qed.

Lemma Quiet_sleep (seconds : nat) : Quiet (sleep seconds).
Proof.
  intros w r w' H. inversion H; subst. now apply quiet_emit.
Qed.

Create HintDb quiet.
#[local] Hint Resolve Quiet_ret Quiet_raise Quiet_read_file Quiet_py_split
  Quiet_index Quiet_send Quiet_sleep : quiet.

Ltac quiet_steps :=
  repeat first
    [ solve [auto with quiet]
    | match goal with |- Quiet (match ?x with _ => _ end) => destruct x end
    | progress cbv zeta
    | apply Quiet_bind; [|intros] ].

Lemma Quiet_read_reviews (file_path delimiter : str) :
  Quiet (read_reviews file_path delimiter).
Proof. unfold read_reviews. quiet_steps. Qed.

Lemma Quiet_extract_line (fields : str * str) (line : str) :
  Quiet (extract_line fields line).
Proof. unfold extract_line. destruct fields. quiet_steps. Qed.

Lemma Quiet_extract_lines (lines : list str) (fields : str * str) :
  Quiet (extract_lines fields lines).
Proof.
  revert fields; induction lines as [|line rest IH]; intro fields; simpl.
  - apply Quiet_ret.
  - apply Quiet_bind; [apply Quiet_extract_line | intro; apply IH].
Qed.

Lemma Quiet_extract_review_info (review : str) :
  Quiet (extract_review_info review).
Proof.
  unfold extract_review_info.
  apply Quiet_bind; [auto with quiet | intro; apply Quiet_extract_lines].
Qed.

Lemma Quiet_guess_product (review_text : str) : Quiet (guess_product review_text).
Proof. unfold guess_product. quiet_steps. Qed.

Lemma Quiet_analyze_sentiment (review_text : str) :
  Quiet (analyze_sentiment review_text).
Proof. unfold analyze_sentiment. quiet_steps. Qed.

#[local] Hint Resolve Quiet_extract_review_info Quiet_guess_product
  Quiet_analyze_sentiment Quiet_read_reviews : quiet.

Lemma Quiet_process_review (data : list (list str)) (review : str) :
  Quiet (process_review data review).
Proof. unfold process_review. quiet_steps. Qed.

Lemma Quiet_process_loop (reviews : list str) (data : list (list str)) :
  Quiet (process_loop data reviews).
Proof.
  revert data; induction reviews as [|review rest IH]; intro data; simpl.
  - apply Quiet_ret.
  - apply Quiet_bind; [apply Quiet_process_review | intro; apply IH].
Qed.

(* ------------------------------------------------------------------ *)
(** *** The extractor *)

(** On a line that begins with a label, [line.split(":", 1)] has two
    parts and the second is the text after the first colon. *)
Lemma labelled_line_parts (l : Label) (line : str) :
  startswith (label_prefix l) line = true ->
  split_count 1 (lit ":") line
  = [removelast (label_prefix l); after_first_colon line].
Proof.
  intro H. apply startswith_inv in H.
  set (t := skipn (length (label_prefix l)) line) in H. clearbody t.
  subst line. destruct l; reflexivity.
Qed.

(** No line begins with both labels, so the [elif] loses nothing. *)
Lemma labels_exclusive (line : str) :
  startswith (lit "Product:") line = true ->
  startswith (lit "Review:") line = false.
Proof.
  intro H. destruct line as [|c line]; [vm_compute in H; discriminate H|].
  unfold lit in *. cbn [list_ascii_of_string startswith] in *.
  destruct (Ascii.eqb_spec "P" c) as [<-|_]; [reflexivity | discriminate H].
Qed.

Lemma extract_line_spec (fields : str * str) (line : str) (w : World) :
  extract_line fields line w
  = (Ok (spec_scan Product (fst fields) line,
         spec_scan Review (snd fields) line), w).
Proof.
  destruct fields as [product review_text].
  unfold extract_line, spec_scan. cbn [fst snd label_prefix].
  destruct (startswith (lit "Product:") line) eqn:HP.
  - rewrite (labels_exclusive line HP).
    rewrite (labelled_line_parts Product line HP). reflexivity.
  - destruct (startswith (lit "Review:") line) eqn:HR.
    + rewrite (labelled_line_parts Review line HR). reflexivity.
    + reflexivity.
Qed.

Lemma extract_lines_spec (lines : list str) (fields : str * str) (w : World) :
  extract_lines fields lines w
  = (Ok (fold_left (spec_scan Product) lines (fst fields),
         fold_left (spec_scan Review) lines (snd fields)), w).
Proof.
  revert fields; induction lines as [|line rest IH]; intro fields.
  - destruct fields; reflexivity.
  - cbn [extract_lines fold_left]. unfold bind.
    rewrite extract_line_spec. now rewrite IH.
Qed.

Lemma extract_review_info_spec (review : str) (w : World) :
  extract_review_info review w
  = (Ok (spec_field Product (split_all [LF] review),
         spec_field Review (split_all [LF] review)), w).
Proof.
  unfold extract_review_info, py_split, bind. cbn [truthy ret].
  now rewrite extract_lines_spec.
Qed.

Lemma spec_field_unlabelled (l : Label) (lines : list str) (value : str) :
  (forall line, In line lines -> startswith (label_prefix l) line = false) ->
  fold_left (spec_scan l) lines value = value.
Proof.
  revert value; induction lines as [|line rest IH]; intros value H.
  - reflexivity.
  - cbn [fold_left]. unfold spec_scan at 2.
    rewrite (H line) by now left.
    apply IH. intros x Hx. apply H. now right.
Qed.

(** C3. For every review blob the extractor returns, without raising,
    the two fields obtained by scanning the lines in order: a line that
    begins with [Product:] (resp. [Review:]) sets the product (resp.
    review) field to the trimmed text after the first colon, every other
    line is ignored, and a field whose labelled line is absent is the
    empty string. *)
Theorem extractor_scans_labelled_lines (review : str) (w : World) :
  exists fields,
    extract_review_info review w = (Ok fields, w)
    /\ (forall l, field l fields = spec_field l (split_all [LF] review))
    /\ (forall l,
          (forall line, In line (split_all [LF] review) ->
                        startswith (label_prefix l) line = false) ->
          field l fields = []).
Proof.
  eexists. split; [apply extract_review_info_spec|]. split.
  - intros []; reflexivity.
  - intros l H.
    assert (E : spec_field l (split_all [LF] review) = [])
      by (apply spec_field_unlabelled; exact H).
    destruct l; exact E.
Qed.

(** C8. When several lines of a blob begin with the same label, the
    field returned is the one parsed from the last of them: a labelled
    line followed by no other line with that label decides the field,
    whatever comes before it. *)
Theorem extractor_last_labelled_line_wins
  (l : Label) (review : str) (before : list str) (line : str)
  (after : list str) (w : World) :
  split_all [LF] review = before ++ line :: after ->
  startswith (label_prefix l) line = true ->
  (forall x, In x after -> startswith (label_prefix l) x = false) ->
  exists fields,
    extract_review_info review w = (Ok fields, w)
    /\ field l fields = strip (after_first_colon line).
Proof.
  intros Hlines Hline Hafter.
  eexists. split; [apply extract_review_info_spec|].
  assert (E : spec_field l (split_all [LF] review)
              = strip (after_first_colon line)).
  { rewrite Hlines. unfold spec_field.
    rewrite fold_left_app. cbn [fold_left].
    rewrite spec_field_unlabelled by exact Hafter.
    unfold spec_scan. now rewrite Hline. }
  destruct l; exact E.
Qed.

(** C9. The extractor is total: on every input string it returns a pair
    of fields and leaves the world alone; and on every line that begins
    with [Product:] or [Review:] the split on the first colon has two
    parts, so that the access to index 1 is in bounds. *)
Theorem extractor_total_index_in_bounds (review line : str) (w : World) :
  (exists fields, extract_review_info review w = (Ok fields, w))
  /\ (forall l, startswith (label_prefix l) line = true ->
       length (split_count 1 (lit ":") line) = 2
       /\ exists part, index (split_count 1 (lit ":") line) 1 w = (Ok part, w)).
Proof.
  split.
  - eexists. apply extract_review_info_spec.
  - intros l H. rewrite (labelled_line_parts l line H). split.
    + reflexivity.
    + eexists. reflexivity.
Qed.

(* ------------------------------------------------------------------ *)
(** *** One review: the three remote calls *)

Lemma bind_Ok_inv {A B} (c : M A) (k : A -> M B) (w : World) (b : B)
  (w' : World) :
  bind c k w = (Ok b, w') ->
  exists a w1, c w = (Ok a, w1) /\ k a w1 = (Ok b, w').
Proof.
  unfold bind. destruct (c w) as [[a|e] w1]; intro H; [|discriminate].
  now exists a, w1.
Qed.

Lemma bind_Raise_inv {A B} (c : M A) (k : A -> M B) (w : World)
  (e : Exn RemoteErr) (w' : World) :
  bind c k w = (Raise e, w') ->
  c w = (Raise e, w')
  \/ exists a w1, c w = (Ok a, w1) /\ k a w1 = (Raise e, w').
Proof.
  unfold bind. destruct (c w) as [[a|e0] w1]; intro H.
  - right. now exists a, w1.
  - left. inversion H; reflexivity.
Qed.

Lemma send_answered (prompt text : str) (s : Session) (w : World) :
  send_message (chat w) prompt = (inr text, s) ->
  send prompt w = (Ok text, answered w prompt text s).
Proof. intro H. unfold send. now rewrite H. Qed.

Lemma send_Ok_inv (prompt text : str) (w w' : World) :
  send prompt w = (Ok text, w') ->
  exists s, send_message (chat w) prompt = (inr text, s)
            /\ w' = answered w prompt text s.
Proof.
  unfold send. destruct (send_message (chat w) prompt) as [[e|t] s];
    intro H; inversion H; subst. now exists s.
Qed.

(** A successful turn of the loop, taken apart. *)
Lemma process_review_Ok_inv (data : list (list str)) (review : str)
  (w : World) (data' : list (list str)) (w' : World) :
  process_review data review w = (Ok data', w') ->
  exists original_product review_text g t r s1 s2 s3,
    extract_review_info review w = (Ok (original_product, review_text), w)
    /\ send_message (chat w) (guess_prompt review_text) = (inr g, s1)
    /\ send_message s1 (sentiment_prompt review_text) = (inr t, s2)
    /\ send_message s2 (reply_prompt review_text (lower t)) = (inr r, s3)
    /\ data' = data ++ [[original_product; strip g; review_text; lower t; r]]
    /\ w' = emit (EvSleep 2)
              (answered
                 (answered (answered w (guess_prompt review_text) g s1)
                    (sentiment_prompt review_text) t s2)
                 (reply_prompt review_text (lower t)) r s3).
Proof.
  intro H. unfold process_review in H.
  apply bind_Ok_inv in H as ([op rt] & w1 & He & H).
  pose proof He as He'.
  rewrite extract_review_info_spec in He'. inversion He'; subst op rt w1.
  apply bind_Ok_inv in H as (g' & w2 & Hg & H).
  unfold guess_product in Hg.
  apply bind_Ok_inv in Hg as (g & w2' & Hg & Hret).
  inversion Hret; subst g' w2'; clear Hret.
  apply send_Ok_inv in Hg as (s1 & Hs1 & ->).
  apply bind_Ok_inv in H as ([sentiment reply] & w3 & Ha & H).
  unfold analyze_sentiment in Ha.
  apply bind_Ok_inv in Ha as (t & w3' & Ht & Ha). cbv zeta in Ha.
  apply bind_Ok_inv in Ha as (r & w4 & Hr & Hret).
  inversion Hret; subst sentiment reply w4; clear Hret.
  apply send_Ok_inv in Ht as (s2 & Hs2 & ->).
  apply send_Ok_inv in Hr as (s3 & Hs3 & ->).
  cbv zeta in H.
  apply bind_Ok_inv in H as ([] & w5 & Hsl & Hret).
  inversion Hsl; subst w5; clear Hsl. inversion Hret; subst data' w'.
  exists (spec_field Product (split_all [LF] review)),
         (spec_field Review (split_all [LF] review)), g, t, r, s1, s2, s3.
  repeat split; assumption.
Qed.

(** The same turn, run forward from the three answers. *)
Lemma process_review_run (data : list (list str)) (review : str)
  (w : World) (original_product review_text g t r : str) (s1 s2 s3 : Session) :
  extract_review_info review w = (Ok (original_product, review_text), w) ->
  send_message (chat w) (guess_prompt review_text) = (inr g, s1) ->
  send_message s1 (sentiment_prompt review_text) = (inr t, s2) ->
  send_message s2 (reply_prompt review_text (lower t)) = (inr r, s3) ->
  process_review data review w
  = (Ok (data ++ [[original_product; strip g; review_text; lower t; r]]),
     emit (EvSleep 2)
       (answered
          (answered (answered w (guess_prompt review_text) g s1)
             (sentiment_prompt review_text) t s2)
          (reply_prompt review_text (lower t)) r s3)).
Proof.
  intros He H1 H2 H3.
  unfold process_review, bind. rewrite He.
  unfold guess_product, bind. rewrite (send_answered _ g s1 w H1).
  cbn [ret]. unfold analyze_sentiment, bind.
  rewrite (send_answered _ t s2 (answered w (guess_prompt review_text) g s1) H2).
  cbv zeta.
  rewrite (send_answered _ r s3
             (answered (answered w (guess_prompt review_text) g s1)
                (sentiment_prompt review_text) t s2) H3).
  reflexivity.
Qed.

(** C6. A turn of the loop that completes has issued exactly three
    remote calls, in the order guess_product, classify_sentiment,
    generate_reply, each with the prompt of the source around the review
    text; the reply prompt ends with [ as per sentiment ] followed by the
    lowercased answer [lower t] to the sentiment call of that same
    review.  The turn then slept 2 seconds, and the row of the review is
    appended to the list with which the next review is processed. *)
Theorem review_calls_in_order (data : list (list str)) (review : str)
  (rest : list str) (w : World) (data' : list (list str)) (w' : World) :
  process_review data review w = (Ok data', w') ->
  exists original_product review_text g t r,
    extract_review_info review w = (Ok (original_product, review_text), w)
    /\ trace w' = trace w ++
         [EvSend
            (lit "Guess the product name based on this review in one word: "
             ++ review_text)
            (Some g);
          EvSend
            (lit "Categorize the sentiment in one word of this review in Positive/Negative/Neutral: "
             ++ review_text)
            (Some t);
          EvSend
            (lit "Add a 40 words reply to this review: " ++ review_text
             ++ lit " as per sentiment " ++ lower t)
            (Some r);
          EvSleep 2]
    /\ data' = data ++ [[original_product; strip g; review_text; lower t; r]]
    /\ process_loop data (review :: rest) w = process_loop data' rest w'.
Proof.
  intro H.
  destruct (process_review_Ok_inv _ _ _ _ _ H)
    as (op & rt & g & t & r & s1 & s2 & s3 & He & _ & _ & _ & Hd & Hw).
  exists op, rt, g, t, r. repeat split; try assumption.
  - subst w'. cbn [emit answered trace].
    unfold guess_prompt, sentiment_prompt, reply_prompt.
    now rewrite <- !app_assoc.
  - cbn [process_loop]. unfold bind. now rewrite H.
Qed.

(** C5. Whatever text the sentiment call returns, the review is
    processed, and the sentiment field of its row (the fourth) is the
    lowercased form of that text; lowercasing the stored field again
    leaves it as it is. *)
Theorem sentiment_field_is_lowercased_response
  (data : list (list str)) (review : str) (w : World)
  (original_product review_text g t r : str) (s1 s2 s3 : Session) :
  extract_review_info review w = (Ok (original_product, review_text), w) ->
  send_message (chat w) (guess_prompt review_text) = (inr g, s1) ->
  send_message s1 (sentiment_prompt review_text) = (inr t, s2) ->
  send_message s2 (reply_prompt review_text (lower t)) = (inr r, s3) ->
  exists row w',
    process_review data review w = (Ok (data ++ [row]), w')
    /\ nth_error row 3 = Some (lower t)
    /\ lower (lower t) = lower t
    /\ analyze_sentiment review_text
         (answered w (guess_prompt review_text) g s1)
       = (Ok (lower t, r),
          answered
            (answered (answered w (guess_prompt review_text) g s1)
               (sentiment_prompt review_text) t s2)
            (reply_prompt review_text (lower t)) r s3).
Proof.
  intros He H1 H2 H3.
  eexists. eexists. split; [|split; [|split]].
  - eapply process_review_run; eassumption.
  - reflexivity.
  - apply lower_idempotent.
  - unfold analyze_sentiment, bind.
    rewrite (send_answered _ t s2 (answered w (guess_prompt review_text) g s1) H2).
    cbv zeta.
    rewrite (send_answered _ r s3
               (answered (answered w (guess_prompt review_text) g s1)
                  (sentiment_prompt review_text) t s2) H3).
    reflexivity.
Qed.

(* ------------------------------------------------------------------ *)
(** *** The loop over the reviews *)

Lemma bind_assoc {A B C} (c : M A) (k : A -> M B) (k' : B -> M C) (w : World) :
  bind (bind c k) k' w = bind c (fun a => bind (k a) k') w.
Proof. unfold bind. destruct (c w) as [[a|e] w1]; reflexivity. Qed.

Lemma process_loop_app (xs ys : list str) (data : list (list str)) (w : World) :
  process_loop data (xs ++ ys) w
  = bind (process_loop data xs) (fun d => process_loop d ys) w.
Proof.
  revert data w; induction xs as [|x xs IH]; intros data w.
  - reflexivity.
  - cbn [app process_loop]. rewrite bind_assoc.
    unfold bind. destruct (process_review data x w) as [[d|e] w1];
      [|reflexivity].
    rewrite IH. reflexivity.
Qed.

Lemma row_of_review (review : str) (w : World) (original_product review_text : str)
  (guessed_product sentiment reply : str) :
  extract_review_info review w = (Ok (original_product, review_text), w) ->
  row_of review
    [original_product; guessed_product; review_text; sentiment; reply].
Proof.
  intro He. rewrite extract_review_info_spec in He. inversion He; subst.
  exists (spec_field Product (split_all [LF] review)),
         (spec_field Review (split_all [LF] review)),
         guessed_product, sentiment, reply.
  split; [intro w0; apply extract_review_info_spec | reflexivity].
Qed.

(** A loop that completes has appended one row per review, in order. *)
Lemma process_loop_Ok_inv (reviews : list str) (data : list (list str))
  (w : World) (data' : list (list str)) (w' : World) :
  process_loop data reviews w = (Ok data', w') ->
  exists rows, data' = data ++ rows /\ Forall2 row_of reviews rows.
Proof.
  revert data w; induction reviews as [|review rest IH]; intros data w H.
  - inversion H; subst. exists []. split; [now rewrite app_nil_r | constructor].
  - cbn [process_loop] in H.
    apply bind_Ok_inv in H as (d & w1 & Hrev & Hloop).
    destruct (process_review_Ok_inv _ _ _ _ _ Hrev)
      as (op & rt & g & t & r & s1 & s2 & s3 & He & _ & _ & _ & Hd & _).
    destruct (IH _ _ Hloop) as (rows & -> & Hrows). subst d.
    exists ([op; strip g; rt; lower t; r] :: rows). split.
    + now rewrite <- app_assoc.
    + constructor; [eapply row_of_review; exact He | exact Hrows].
Qed.

(* ------------------------------------------------------------------ *)
(** *** Loading and writing *)

Lemma str_eqb_refl (s : str) : str_eqb s s = true.
Proof. unfold str_eqb. destruct (list_eq_dec ascii_dec s s); congruence. Qed.

Lemma str_eqb_neq (a b : str) : a <> b -> str_eqb a b = false.
Proof. unfold str_eqb. destruct (list_eq_dec ascii_dec a b); congruence. Qed.

(** What [read_reviews] computes. *)
Lemma read_reviews_spec (file_path delimiter : str) (w : World) :
  read_reviews file_path delimiter w =
  match read_text w file_path with
  | None => (Raise (OSError file_path), w)
  | Some text =>
      if truthy delimiter then (Ok (spec_blobs text delimiter), w)
      else (Raise (ValueError (lit "empty separator")), w)
  end.
Proof.
  unfold read_reviews, bind, read_file, py_split.
  destruct (read_text w file_path) as [text|]; [|reflexivity].
  destruct (truthy delimiter); [|reflexivity].
  unfold ret, spec_blobs. now rewrite strip_filter_commute.
Qed.

Lemma save_to_csv_spec (data : list (list str)) (csv_file : str) (w : World) :
  save_to_csv data csv_file w =
  if writable w csv_file then (Ok tt, saved data csv_file w)
  else (Raise (OSError csv_file), w).
Proof.
  unfold save_to_csv, bind, open_write.
  destruct (writable w csv_file); reflexivity.
Qed.

Lemma saved_files (data : list (list str)) (csv_file : str) (w : World) :
  files (saved data csv_file w) csv_file
  = Some (csv_record header ++ concat (map csv_record data))
  /\ (forall p, p <> csv_file -> files (saved data csv_file w) p = files w p).
Proof.
  unfold saved, append_file.
  repeat (cbn [emit files set_file app]; rewrite ?str_eqb_refl).
  split; [reflexivity|].
  intros p Hp. now rewrite !(str_eqb_neq p csv_file Hp).
Qed.

Lemma saved_trace (data : list (list str)) (csv_file : str) (w : World) :
  trace (saved data csv_file w)
  = trace w ++ [EvOpenWrite csv_file; EvWriterow header; EvWriterows data].
Proof.
  unfold saved, append_file.
  repeat (cbn [emit files set_file trace]; rewrite ?str_eqb_refl).
  now rewrite <- !app_assoc.
Qed.

(** A run of [process_reviews] that completes, taken apart. *)
Lemma process_reviews_Ok_inv (file_path csv_file delimiter : str)
  (w w' : World) (u : unit) :
  process_reviews file_path csv_file delimiter w = (Ok u, w') ->
  exists text data w1,
    read_text w file_path = Some text
    /\ truthy delimiter = true
    /\ process_loop [] (spec_blobs text delimiter) w = (Ok data, w1)
    /\ writable w1 csv_file = true
    /\ w' = saved data csv_file w1.
Proof.
  intro H. unfold process_reviews in H.
  apply bind_Ok_inv in H as (reviews & w0 & Hread & H).
  rewrite read_reviews_spec in Hread.
  destruct (read_text w file_path) as [text|]; [|discriminate].
  destruct (truthy delimiter); [|discriminate].
  inversion Hread; subst reviews w0; clear Hread.
  apply bind_Ok_inv in H as (data & w1 & Hloop & Hsave).
  rewrite save_to_csv_spec in Hsave.
  destruct (writable w1 csv_file) eqn:Hwr; [|discriminate].
  inversion Hsave; subst.
  now exists text, data, w1.
Qed.

(** A run of [process_reviews] that raises has not touched the writer. *)
Lemma process_reviews_Raise_quiet (file_path csv_file delimiter : str)
  (w w' : World) (e : Exn RemoteErr) :
  process_reviews file_path csv_file delimiter w = (Raise e, w') ->
  quiet w w'.
Proof.
  intro H. unfold process_reviews in H.
  apply bind_Raise_inv in H as [H | (reviews & w0 & Hread & H)].
  - now apply Quiet_read_reviews in H.
  - apply Quiet_read_reviews in Hread.
    apply bind_Raise_inv in H as [H | (data & w1 & Hloop & Hsave)].
    + apply Quiet_process_loop in H. eapply quiet_trans; eassumption.
    + apply Quiet_process_loop in Hloop.
      rewrite save_to_csv_spec in Hsave.
      destruct (writable w1 csv_file); [discriminate|].
      inversion Hsave; subst. eapply quiet_trans; eassumption.
Qed.

Lemma Forall2_length_eq {A B} (P : A -> B -> Prop) (xs : list A) (ys : list B) :
  Forall2 P xs ys -> length ys = length xs.
Proof. induction 1; simpl; congruence. Qed.

Lemma quiet_no_writerows (evs : list Event) (rows : list (list str)) :
  Forall (fun ev => writer_event ev = false) evs ->
  ~ In (EvWriterows rows) evs.
Proof.
  intros Hq Hin. rewrite Forall_forall in Hq.
  specialize (Hq _ Hin). discriminate.
Qed.

(** C1. For every input file and every run of [process_reviews] on it:
    the data rows handed to the CSV writer are as many as the non-empty
    review blobs, the blobs being the segments of the file contents
    between delimiters, each stripped, those empty after stripping
    discarded; and a run that completes does hand its rows to the
    writer. *)
Theorem rows_written_match_blobs (file_path csv_file delimiter : str)
  (w : World) (r : result RemoteErr unit) (w' : World) (evs : list Event) :
  process_reviews file_path csv_file delimiter w = (r, w') ->
  trace w' = trace w ++ evs ->
  (forall rows, In (EvWriterows rows) evs ->
     exists text, read_text w file_path = Some text
                  /\ length rows = length (spec_blobs text delimiter))
  /\ (forall u, r = Ok u -> exists rows, In (EvWriterows rows) evs).
Proof.
  intros H Htr. destruct r as [u|e].
  - destruct (process_reviews_Ok_inv _ _ _ _ _ _ H)
      as (text & data & w1 & Hf & Hd & Hloop & Hwr & ->).
    destruct (Quiet_process_loop _ _ _ _ _ Hloop) as (_ & _ & evs1 & Ht1 & Hq).
    destruct (process_loop_Ok_inv _ _ _ _ _ Hloop) as (rows1 & Hrows & HF).
    cbn [app] in Hrows. subst rows1.
    rewrite saved_trace, Ht1, <- app_assoc in Htr.
    apply app_inv_head in Htr. subst evs. split.
    + intros rows Hin. exists text. split; [assumption|].
      apply in_app_or in Hin as [Hin | Hin].
      * exfalso. eapply quiet_no_writerows; eassumption.
      * cbn [In] in Hin.
        destruct Hin as [Hin | [Hin | [Hin | []]]]; try discriminate.
        inversion Hin; subst rows.
        eapply Forall2_length_eq; eassumption.
    + intros _ _. exists data. apply in_or_app. right. cbn [In]. auto.
  - destruct (process_reviews_Raise_quiet _ _ _ _ _ _ H)
      as (_ & _ & evs1 & Ht1 & Hq).
    rewrite Ht1 in Htr. apply app_inv_head in Htr. subst evs1. split.
    + intros rows Hin. exfalso. eapply quiet_no_writerows; eassumption.
    + intros u Hu. discriminate.
Qed.

(** C2. When the remote call fails while the N-th review is processed
    (the N-1 reviews before it having been processed, with their rows in
    [data]), [process_reviews] raises that error: the rows are not
    returned, no file has changed and the writer has not been touched.
    Moreover, in any run, an event of the writer can only occur when the
    loop over all the reviews has completed without error. *)
Theorem remote_failure_aborts_before_writer
  (file_path csv_file delimiter : str) (w : World)
  (done : list str) (review : str) (rest : list str) (w0 : World)
  (data : list (list str)) (w1 : World) (e : RemoteErr) (w2 : World) :
  read_reviews file_path delimiter w = (Ok (done ++ review :: rest), w0) ->
  process_loop [] done w0 = (Ok data, w1) ->
  process_review data review w1 = (Raise (RemoteError e), w2) ->
  process_reviews file_path csv_file delimiter w = (Raise (RemoteError e), w2)
  /\ length data = length done
  /\ files w2 = files w
  /\ (exists evs, trace w2 = trace w ++ evs
                  /\ Forall (fun ev => writer_event ev = false) evs)
  /\ (forall r w' evs,
        process_reviews file_path csv_file delimiter w = (r, w') ->
        trace w' = trace w ++ evs ->
        Exists (fun ev => writer_event ev = true) evs ->
        exists reviews wa data' wb,
          read_reviews file_path delimiter w = (Ok reviews, wa)
          /\ process_loop [] reviews wa = (Ok data', wb)).
Proof.
  intros Hread Hdone Hfail.
  assert (Hrun : process_reviews file_path csv_file delimiter w
                 = (Raise (RemoteError e), w2)).
  { unfold process_reviews, bind. rewrite Hread.
    rewrite process_loop_app. unfold bind. rewrite Hdone.
    cbn [process_loop]. unfold bind. rewrite Hfail. reflexivity. }
  split; [exact Hrun|]. split; [|split; [|split]].
  - destruct (process_loop_Ok_inv _ _ _ _ _ Hdone) as (rows & -> & HF).
    cbn [app]. eapply Forall2_length_eq; eassumption.
  - apply process_reviews_Raise_quiet in Hrun. apply Hrun.
  - apply process_reviews_Raise_quiet in Hrun. apply Hrun.
  - intros r w' evs H Htr Hex. destruct r as [u|e'].
    + destruct (process_reviews_Ok_inv _ _ _ _ _ _ H)
        as (text & data' & wb & Hf & Hd & Hloop & _ & _).
      exists (spec_blobs text delimiter), w, data', wb. split; [|exact Hloop].
      rewrite read_reviews_spec, Hf, Hd. reflexivity.
    + exfalso.
      destruct (process_reviews_Raise_quiet _ _ _ _ _ _ H)
        as (_ & _ & evs1 & Ht1 & Hq).
      rewrite Ht1 in Htr. apply app_inv_head in Htr. subst evs1.
      apply Exists_exists in Hex as (ev & Hin & Hev).
      rewrite Forall_forall in Hq. specialize (Hq _ Hin). congruence.
Qed.

(** The header row as the writer serialises it. *)
Lemma header_record :
  csv_record header
  = lit "Original Product,Guessed Product,Review,Sentiment,Reply" ++ [CR; LF].
Proof. vm_compute. reflexivity. Qed.

(** C4. A run that completes has written the destination file anew:
    whatever it held before, it now holds the header record
    [Original Product,Guessed Product,Review,Sentiment,Reply] first and
    then one record per review blob, in the order of the blobs in the
    input; the writer was opened on the destination, given the header
    row, then the data rows. *)
Theorem writer_overwrites_header_then_rows
  (file_path csv_file delimiter : str) (w w' : World) (u : unit) :
  process_reviews file_path csv_file delimiter w = (Ok u, w') ->
  exists reviews data evs,
    read_reviews file_path delimiter w = (Ok reviews, w)
    /\ Forall2 row_of reviews data
    /\ files w' csv_file
       = Some (lit "Original Product,Guessed Product,Review,Sentiment,Reply"
               ++ [CR; LF] ++ concat (map csv_record data))
    /\ (forall p, p <> csv_file -> files w' p = files w p)
    /\ trace w' = trace w ++ evs
         ++ [EvOpenWrite csv_file; EvWriterow header; EvWriterows data]
    /\ Forall (fun ev => writer_event ev = false) evs.
Proof.
  intro H.
  destruct (process_reviews_Ok_inv _ _ _ _ _ _ H)
    as (text & data & w1 & Hf & Hd & Hloop & Hwr & ->).
  destruct (Quiet_process_loop _ _ _ _ _ Hloop) as (Hfs & _ & evs & Ht & Hq).
  destruct (process_loop_Ok_inv _ _ _ _ _ Hloop) as (rows & Hrows & HF).
  cbn [app] in Hrows. subst rows.
  exists (spec_blobs text delimiter), data, evs.
  destruct (saved_files data csv_file w1) as [Hsaved Hother].
  repeat split.
  - rewrite read_reviews_spec, Hf, Hd. reflexivity.
  - exact HF.
  - rewrite Hsaved, header_record, <- app_assoc. reflexivity.
  - intros p Hp. rewrite (Hother p Hp). now rewrite Hfs.
  - rewrite saved_trace, Ht. now rewrite <- app_assoc.
  - exact Hq.
Qed.

(** C7. When the credential variable is absent, or set to the empty
    string, [main] reports the configuration error and does nothing
    else: the only effect is the printed message (no remote call, no
    writer), and the file store is as it was. *)
Theorem missing_credential_is_fatal (fs : str -> option str) (wr : str -> bool) :
  let reported :=
    {| out_files := fs;
       out_trace :=
         [EvPrint (lit "An error occurred: API key not found in environment variables.")]
    |} in
  main os_error_text None fs wr = reported
  /\ main os_error_text (Some []) fs wr = reported.
Proof. split; reflexivity. Qed.

(** C10. The loader cuts the file contents at every occurrence of the
    delimiter, wherever it stands: no blob returned holds the delimiter,
    and when the contents are [pre ++ delimiter ++ post], this being the
    leftmost occurrence, [pre] is cut off there as a blob of its own
    (if it is not blank) and the loading goes on with [post] -- whether
    or not [pre] ends, or [post] begins, with a line break. *)
Theorem loader_splits_at_every_delimiter
  (file_path delimiter text : str) (w : World) :
  read_text w file_path = Some text ->
  truthy delimiter = true ->
  exists blobs,
    read_reviews file_path delimiter w = (Ok blobs, w)
    /\ (forall blob, In blob blobs -> occurs delimiter blob = false)
    /\ (forall pre post,
          text = pre ++ delimiter ++ post ->
          occurs delimiter (pre ++ removelast delimiter) = false ->
          blobs = (if truthy (strip pre) then [strip pre] else [])
                  ++ spec_blobs post delimiter).
Proof.
  intros Hf Hd. exists (spec_blobs text delimiter). split; [|split].
  - rewrite read_reviews_spec, Hf, Hd. reflexivity.
  - intros blob Hin. unfold spec_blobs in Hin.
    apply filter_In in Hin as [Hin _].
    apply in_map_iff in Hin as (piece & <- & Hin).
    apply occurs_strip; [assumption|].
    eapply split_count_pieces_free; [exact Hd | | exact Hin]. lia.
  - intros pre post -> Hfree.
    pose proof (find_first_at delimiter pre post Hd Hfree) as Hcut.
    unfold spec_blobs at 1, split_all.
    destruct (length (pre ++ delimiter ++ post)) as [|n] eqn:Hlen.
    + apply truthy_length in Hd. rewrite !length_app in Hlen. lia.
    + cbn [split_count]. rewrite Hcut. cbn [map filter].
      rewrite (split_count_saturates delimiter n (length post) post Hd).
      * destruct (truthy (strip pre)); reflexivity.
      * apply truthy_length in Hd. rewrite !length_app in Hlen. lia.
      * lia.
Qed.

(* ------------------------------------------------------------------ *)
(** *** Runs that complete *)

(** When the service answers every call, the loop completes. *)
Lemma process_loop_completes :
  (forall s prompt, exists text s', send_message s prompt = (inr text, s')) ->
  forall reviews data w,
  exists data' w', process_loop data reviews w = (Ok data', w').
Proof.
  intros Hans reviews; induction reviews as [|review rest IH]; intros data w.
  - now exists data, w.
  - cbn [process_loop]. unfold bind.
    destruct (Hans (chat w)
                (guess_prompt (spec_field Review (split_all [LF] review))))
      as (g & s1 & H1).
    destruct (Hans s1
                (sentiment_prompt (spec_field Review (split_all [LF] review))))
      as (t & s2 & H2).
    destruct (Hans s2
                (reply_prompt (spec_field Review (split_all [LF] review))
                   (lower t)))
      as (r & s3 & H3).
    rewrite (process_review_run data review w _ _ _ _ _ _ _ _
               (extract_review_info_spec review w) H1 H2 H3).
    apply IH.
Qed.

(** When moreover the input can be read, the delimiter is not empty and
    the destination can be written, the whole run completes. *)
Lemma process_reviews_completes (file_path csv_file delimiter text : str)
  (w : World) :
  (forall s prompt, exists text s', send_message s prompt = (inr text, s')) ->
  read_text w file_path = Some text ->
  truthy delimiter = true ->
  writable w csv_file = true ->
  exists w', process_reviews file_path csv_file delimiter w = (Ok tt, w').
Proof.
  intros Hans Hf Hd Hwr.
  unfold process_reviews, bind. rewrite read_reviews_spec, Hf, Hd.
  destruct (process_loop_completes Hans (spec_blobs text delimiter) [] w)
    as (data & w1 & Hloop).
  rewrite Hloop, save_to_csv_spec.
  destruct (Quiet_process_loop _ _ _ _ _ Hloop) as (_ & Hw & _).
  rewrite Hw, Hwr. eexists; reflexivity.
Qed.

(** At the top level a run that raises is reported and leaves the file
    store as [main] found it. *)
Lemma main_reports_failure (key : str) (fs : str -> option str)
  (wr : str -> bool) (chat_session : Session) (e : Exn RemoteErr) (w : World) :
  truthy key = true ->
  start_chat key = inr chat_session ->
  process_reviews reviews_path csv_path default_delimiter
    {| files := fs; writable := wr; chat := chat_session; trace := [] |}
  = (Raise e, w) ->
  main os_error_text (Some key) fs wr
  = {| out_files := fs;
       out_trace :=
         trace w ++ [EvPrint (lit "An error occurred: " ++ exn_text os_error_text e)] |}.
Proof.
  intros Hkey Hchat Hrun. unfold main. rewrite Hkey, Hchat.
  cbn [negb]. rewrite Hrun. unfold report.
  destruct (process_reviews_Raise_quiet _ _ _ _ _ _ Hrun) as (Hf & _).
  cbn [files] in Hf. now rewrite Hf.
Qed.

(* ================================================================== *)
(** ** Further properties of the code *)
(* ================================================================== *)

(* ------------------------------------------------------------------ *)
(** *** The loader *)

Lemma spec_blobs_clean (text delimiter blob : str) :
  In blob (spec_blobs text delimiter) ->
  truthy blob = true /\ strip blob = blob.
Proof.
  unfold spec_blobs. intro Hin.
  apply filter_In in Hin as [Hin Hne]. split; [exact Hne|].
  apply in_map_iff in Hin as (piece & <- & _). apply strip_idempotent.
Qed.

Lemma spec_blobs_blank (text delimiter : str) :
  truthy delimiter = true ->
  Forall (fun c => isspace c = true) text ->
  spec_blobs text delimiter = [].
Proof.
  intros Hd Hblank. unfold spec_blobs, split_all.
  assert (H : forall piece,
             In piece (split_count (length text) delimiter text) ->
             strip piece = []).
  { intros piece Hin. apply strip_blank.
    eapply split_count_pieces_chars; eassumption. }
  induction (split_count (length text) delimiter text) as [|x xs IH];
    [reflexivity|].
  cbn [map filter]. rewrite (H x) by now left. cbn [truthy].
  apply IH. intros piece Hin. apply H. now right.
Qed.

(** X1. Every review that [read_reviews] returns is non-empty and has no
    blank at either end. *)
Theorem loaded_reviews_nonempty_stripped (file_path delimiter : str)
  (w : World) (reviews : list str) (w' : World) :
  read_reviews file_path delimiter w = (Ok reviews, w') ->
  forall review, In review reviews ->
    truthy review = true /\ strip review = review.
Proof.
  intros H review Hin. rewrite read_reviews_spec in H.
  destruct (read_text w file_path) as [text|]; [|discriminate].
  destruct (truthy delimiter); [|discriminate].
  inversion H; subst. eapply spec_blobs_clean; eassumption.
Qed.

(** X2. An input file that is empty or holds only blanks gives no
    review: the run makes no remote call, does not sleep, and writes a
    file that holds the header record and nothing else. *)
Theorem blank_input_writes_header_only
  (file_path csv_file delimiter text : str) (w : World) :
  read_text w file_path = Some text ->
  Forall (fun c => isspace c = true) text ->
  truthy delimiter = true ->
  writable w csv_file = true ->
  exists w',
    process_reviews file_path csv_file delimiter w = (Ok tt, w')
    /\ trace w' = trace w
                  ++ [EvOpenWrite csv_file; EvWriterow header; EvWriterows []]
    /\ files w' csv_file
       = Some (lit "Original Product,Guessed Product,Review,Sentiment,Reply"
               ++ [CR; LF]).
Proof.
  intros Hf Hblank Hd Hwr. exists (saved [] csv_file w). split; [|split].
  - unfold process_reviews, bind.
    rewrite read_reviews_spec, Hf, Hd, (spec_blobs_blank _ _ Hd Hblank).
    cbn [process_loop ret]. rewrite save_to_csv_spec, Hwr. reflexivity.
  - apply saved_trace.
  - rewrite (proj1 (saved_files [] csv_file w)), header_record.
    cbn [map concat]. now rewrite app_nil_r.
Qed.

(* ------------------------------------------------------------------ *)
(** *** The extractor *)

Lemma after_first_colon_suffix (line : str) :
  exists pre, line = pre ++ after_first_colon line.
Proof.
  induction line as [|c line [pre IH]].
  - now exists [].
  - cbn [after_first_colon]. destruct (Ascii.eqb c ":").
    + now exists [c].
    + exists (c :: pre). cbn [app]. now f_equal.
Qed.

Lemma lines_without_LF (review line : str) :
  In line (split_all [LF] review) -> ~ In LF line.
Proof.
  intro Hin. apply occurs_char_false.
  eapply split_count_pieces_free; [reflexivity | | exact Hin].
  unfold split_all. lia.
Qed.

Lemma spec_field_clean (l : Label) (lines : list str) (value : str) :
  (forall line, In line lines -> ~ In LF line) ->
  ~ In LF value /\ strip value = value ->
  ~ In LF (fold_left (spec_scan l) lines value)
  /\ strip (fold_left (spec_scan l) lines value)
     = fold_left (spec_scan l) lines value.
Proof.
  revert value; induction lines as [|line rest IH]; intros value Hlines Hv.
  - exact Hv.
  - cbn [fold_left]. apply IH.
    + intros x Hx. apply Hlines. now right.
    + unfold spec_scan. destruct (startswith (label_prefix l) line); [|exact Hv].
      split; [|apply strip_idempotent].
      apply strip_keeps_out. intro Hin.
      apply (Hlines line); [now left|].
      destruct (after_first_colon_suffix line) as [pre Hpre].
      rewrite Hpre. apply in_or_app. now right.
Qed.

(** X3. Whatever the blob, the product and the review text returned by
    the extractor hold no line break and have no blank at either end: a
    review that runs over several lines is cut to the rest of its
    labelled line. *)
Theorem extracted_fields_single_line_stripped (review : str) (w : World) :
  exists fields,
    extract_review_info review w = (Ok fields, w)
    /\ forall l, ~ In LF (field l fields)
                 /\ strip (field l fields) = field l fields.
Proof.
  eexists. split; [apply extract_review_info_spec|].
  intro l.
  assert (H : ~ In LF (spec_field l (split_all [LF] review))
              /\ strip (spec_field l (split_all [LF] review))
                 = spec_field l (split_all [LF] review)).
  { apply spec_field_clean.
    - intros line Hin. eapply lines_without_LF; exact Hin.
    - split; [intros [] | reflexivity]. }
  destruct l; exact H.
Qed.

(* ------------------------------------------------------------------ *)
(** *** The effects of the loop *)

Lemma sends_app (a b : list Event) : sends (a ++ b) = sends a + sends b.
Proof. unfold sends. now rewrite filter_app, length_app. Qed.

Lemma slept_app (a b : list Event) : slept (a ++ b) = slept a + slept b.
Proof.
  induction a as [|e a IH]; [reflexivity|].
  destruct e; cbn [app slept]; rewrite IH; lia.
Qed.

Lemma calm_not_writer (evs : list Event) :
  Forall (fun ev => calm ev = true) evs ->
  Forall (fun ev => writer_event ev = false) evs.
Proof.
  apply Forall_impl. intros [p [t|]|n|p|row|rows|m] H;
    try reflexivity; discriminate.
Qed.

(** The effects of a turn that completes. *)
Lemma process_review_Ok_trace (data : list (list str)) (review : str)
  (w : World) (data' : list (list str)) (w' : World) :
  process_review data review w = (Ok data', w') ->
  exists g t r,
    trace w' = trace w ++
      [EvSend (guess_prompt (spec_field Review (split_all [LF] review)))
         (Some g);
       EvSend (sentiment_prompt (spec_field Review (split_all [LF] review)))
         (Some t);
       EvSend (reply_prompt (spec_field Review (split_all [LF] review))
                 (lower t)) (Some r);
       EvSleep 2]
    /\ data' = data ++ [[spec_field Product (split_all [LF] review); strip g;
                         spec_field Review (split_all [LF] review); lower t; r]].
Proof.
  intro H.
  destruct (process_review_Ok_inv _ _ _ _ _ H)
    as (op & rt & g & t & r & s1 & s2 & s3 & He & _ & _ & _ & Hd & Hw).
  rewrite extract_review_info_spec in He. inversion He; subst op rt.
  exists g, t, r. split; [|exact Hd].
  subst w'. cbn [emit answered trace]. now rewrite <- !app_assoc.
Qed.

(** A loop that completes has made three calls and slept two seconds
    per review, and nothing else. *)
Lemma process_loop_Ok_trace (reviews : list str) (data : list (list str))
  (w : World) (data' : list (list str)) (w' : World) :
  process_loop data reviews w = (Ok data', w') ->
  exists evs,
    trace w' = trace w ++ evs
    /\ Forall (fun ev => calm ev = true) evs
    /\ sends evs = 3 * length reviews
    /\ slept evs = 2 * length reviews.
Proof.
  revert data w; induction reviews as [|review rest IH]; intros data w H.
  - inversion H; subst. exists []. rewrite app_nil_r.
    repeat split. constructor.
  - cbn [process_loop] in H.
    apply bind_Ok_inv in H as (d & w1 & Hrev & Hloop).
    destruct (process_review_Ok_trace _ _ _ _ _ Hrev) as (g & t & r & Ht & _).
    destruct (IH _ _ Hloop) as (evs & Ht' & Hcalm & Hsends & Hslept).
    eexists. split; [|split; [|split]].
    + rewrite Ht', Ht, <- app_assoc. reflexivity.
    + apply Forall_app. split; [|exact Hcalm]. repeat constructor.
    + rewrite sends_app, Hsends. cbn [length]. unfold sends. cbn. lia.
    + rewrite slept_app, Hslept. cbn [length slept]. lia.
Qed.

(** X4. A run that completes over n reviews has made exactly 3n remote
    calls and slept 2n seconds in all, every call answered, and all of
    it before the destination was opened. *)
Theorem completed_run_calls_and_sleeps
  (file_path csv_file delimiter : str) (w w' : World) (u : unit) :
  process_reviews file_path csv_file delimiter w = (Ok u, w') ->
  exists text data evs,
    read_text w file_path = Some text
    /\ trace w' = trace w ++ evs
         ++ [EvOpenWrite csv_file; EvWriterow header; EvWriterows data]
    /\ Forall (fun ev => calm ev = true) evs
    /\ sends evs = 3 * length (spec_blobs text delimiter)
    /\ slept evs = 2 * length (spec_blobs text delimiter).
Proof.
  intro H.
  destruct (process_reviews_Ok_inv _ _ _ _ _ _ H)
    as (text & data & w1 & Hf & Hd & Hloop & Hwr & ->).
  destruct (process_loop_Ok_trace _ _ _ _ _ Hloop)
    as (evs & Ht & Hcalm & Hsends & Hslept).
  exists text, data, evs. repeat split; try assumption.
  rewrite saved_trace, Ht. now rewrite <- app_assoc.
Qed.

Lemma send_Raise_inv (prompt : str) (w : World) (e : Exn RemoteErr)
  (w' : World) :
  send prompt w = (Raise e, w') ->
  (exists r, e = RemoteError r)
  /\ trace w' = trace w ++ [EvSend prompt None].
Proof.
  unfold send. destruct (send_message (chat w) prompt) as [[r|t] s];
    intro H; inversion H; subst. split; [now exists r | reflexivity].
Qed.

(** A turn that raises: a remote call failed, and it is the last thing
    the turn did. *)
Lemma process_review_Raise_trace (data : list (list str)) (review : str)
  (w : World) (e : Exn RemoteErr) (w' : World) :
  process_review data review w = (Raise e, w') ->
  (exists r, e = RemoteError r)
  /\ exists evs prompt,
       trace w' = trace w ++ evs ++ [EvSend prompt None]
       /\ Forall (fun ev => calm ev = true) evs.
Proof.
  intro H. unfold process_review in H.
  apply bind_Raise_inv in H as [H | ([op rt] & w1 & He & H)].
  { rewrite extract_review_info_spec in H. discriminate. }
  rewrite extract_review_info_spec in He. inversion He; subst op rt w1.
  clear He.
  apply bind_Raise_inv in H as [H | (g' & w2 & Hg & H)].
  { unfold guess_product in H.
    apply bind_Raise_inv in H as [H | (g & w2 & _ & H)]; [|discriminate].
    apply send_Raise_inv in H as [Hr Ht]. split; [exact Hr|].
    exists [], (guess_prompt (spec_field Review (split_all [LF] review))).
    split; [exact Ht | constructor]. }
  unfold guess_product in Hg.
  apply bind_Ok_inv in Hg as (g & w2' & Hg & Hret).
  inversion Hret; subst g' w2'; clear Hret.
  apply send_Ok_inv in Hg as (s1 & _ & ->).
  apply bind_Raise_inv in H as [H | ([sentiment reply] & w3 & Ha & H)].
  - unfold analyze_sentiment in H.
    apply bind_Raise_inv in H as [H | (t & w3 & Ht & H)].
    + apply send_Raise_inv in H as [Hr Htr]. split; [exact Hr|].
      exists [EvSend (guess_prompt (spec_field Review (split_all [LF] review)))
                (Some g)],
             (sentiment_prompt (spec_field Review (split_all [LF] review))).
      split.
      * rewrite Htr. cbn [answered trace]. now rewrite <- app_assoc.
      * repeat constructor.
    + cbv zeta in H. apply send_Ok_inv in Ht as (s2 & _ & ->).
      apply bind_Raise_inv in H as [H | (r & w4 & _ & H)]; [|discriminate].
      apply send_Raise_inv in H as [Hr Htr]. split; [exact Hr|].
      exists [EvSend (guess_prompt (spec_field Review (split_all [LF] review)))
                (Some g);
              EvSend (sentiment_prompt
                        (spec_field Review (split_all [LF] review))) (Some t)],
             (reply_prompt (spec_field Review (split_all [LF] review))
                (lower t)).
      split.
      * rewrite Htr. cbn [answered trace]. now rewrite <- !app_assoc.
      * repeat constructor.
  - cbv zeta in H.
    apply bind_Raise_inv in H as [H | (x & w4 & _ & H)]; discriminate.
Qed.

Lemma process_loop_Raise_trace (reviews : list str) (data : list (list str))
  (w : World) (e : Exn RemoteErr) (w' : World) :
  process_loop data reviews w = (Raise e, w') ->
  (exists r, e = RemoteError r)
  /\ exists evs prompt,
       trace w' = trace w ++ evs ++ [EvSend prompt None]
       /\ Forall (fun ev => calm ev = true) evs.
Proof.
  revert data w; induction reviews as [|review rest IH]; intros data w H.
  - discriminate.
  - cbn [process_loop] in H.
    apply bind_Raise_inv in H as [H | (d & w1 & Hrev & Hloop)].
    + now apply process_review_Raise_trace in H.
    + destruct (process_review_Ok_trace _ _ _ _ _ Hrev) as (g & t & r & Ht & _).
      destruct (IH _ _ Hloop) as (Hr & evs & prompt & Ht' & Hcalm).
      split; [exact Hr|].
      exists ([EvSend (guess_prompt (spec_field Review (split_all [LF] review)))
                 (Some g);
               EvSend (sentiment_prompt
                         (spec_field Review (split_all [LF] review))) (Some t);
               EvSend (reply_prompt
                         (spec_field Review (split_all [LF] review)) (lower t))
                 (Some r);
               EvSleep 2] ++ evs), prompt.
      split.
      * rewrite Ht', Ht, <- !app_assoc. reflexivity.
      * apply Forall_app. split; [repeat constructor | exact Hcalm].
Qed.

(** X5. When a run is stopped by a remote error, the call that failed is
    the last thing the run did: before it only answered calls and
    sleeps, after it nothing -- no further call, no sleep, no write. *)
Theorem failed_call_is_last_effect
  (file_path csv_file delimiter : str) (w : World) (r : RemoteErr)
  (w' : World) :
  process_reviews file_path csv_file delimiter w = (Raise (RemoteError r), w') ->
  exists evs prompt,
    trace w' = trace w ++ evs ++ [EvSend prompt None]
    /\ Forall (fun ev => calm ev = true) evs.
Proof.
  intro H. unfold process_reviews in H.
  apply bind_Raise_inv in H as [H | (reviews & w0 & Hread & H)].
  { rewrite read_reviews_spec in H.
    destruct (read_text w file_path); [|discriminate].
    destruct (truthy delimiter); discriminate. }
  rewrite read_reviews_spec in Hread.
  destruct (read_text w file_path) as [text|]; [|discriminate].
  destruct (truthy delimiter); [|discriminate].
  inversion Hread; subst reviews w0; clear Hread.
  apply bind_Raise_inv in H as [H | (data & w1 & _ & H)].
  - now apply process_loop_Raise_trace in H.
  - rewrite save_to_csv_spec in H.
    destruct (writable w1 csv_file); discriminate.
Qed.

(** X6. Inside the loop over the reviews only a remote call can fail:
    when the loop raises, the error is that of a call to the service.
    Taking a blob apart and building its row never raise. *)
Theorem loop_errors_are_remote (reviews : list str) (data : list (list str))
  (w : World) (e : Exn RemoteErr) (w' : World) :
  process_loop data reviews w = (Raise e, w') ->
  exists r, e = RemoteError r.
Proof.
  intro H. now apply process_loop_Raise_trace in H.
Qed.

(** X7. Whether the destination can be opened is found out only after
    the loop: with a destination that cannot be written, a run whose
    calls are all answered still makes the 3n calls, then raises the
    [OSError] of the destination, and no file has changed. *)
Theorem unwritable_destination_found_after_calls
  (file_path csv_file delimiter text : str) (w : World)
  (data : list (list str)) (w1 : World) :
  read_text w file_path = Some text ->
  truthy delimiter = true ->
  process_loop [] (spec_blobs text delimiter) w = (Ok data, w1) ->
  writable w csv_file = false ->
  process_reviews file_path csv_file delimiter w = (Raise (OSError csv_file), w1)
  /\ files w1 = files w
  /\ exists evs, trace w1 = trace w ++ evs
                 /\ sends evs = 3 * length (spec_blobs text delimiter).
Proof.
  intros Hf Hd Hloop Hwr.
  destruct (Quiet_process_loop _ _ _ _ _ Hloop) as (Hfs & Hw & _).
  split; [|split; [exact Hfs|]].
  - unfold process_reviews, bind.
    rewrite read_reviews_spec, Hf, Hd, Hloop, save_to_csv_spec, Hw, Hwr.
    reflexivity.
  - destruct (process_loop_Ok_trace _ _ _ _ _ Hloop)
      as (evs & Ht & _ & Hsends & _).
    now exists evs.
Qed.

Lemma row_of_length (review : str) (row : list str) :
  row_of review row -> length row = length header.
Proof. intros (op & rt & g & s & r & _ & ->). reflexivity. Qed.

(** X8. Every data row handed to the writer has five fields, as many as
    the header. *)
Theorem rows_have_header_width (file_path csv_file delimiter : str)
  (w : World) (r : result RemoteErr unit) (w' : World) (evs : list Event)
  (rows : list (list str)) :
  process_reviews file_path csv_file delimiter w = (r, w') ->
  trace w' = trace w ++ evs ->
  In (EvWriterows rows) evs ->
  Forall (fun row => length row = length header) rows.
Proof.
  intros H Htr Hin. destruct r as [u|e].
  - destruct (process_reviews_Ok_inv _ _ _ _ _ _ H)
      as (text & data & w1 & Hf & Hd & Hloop & Hwr & ->).
    destruct (Quiet_process_loop _ _ _ _ _ Hloop) as (_ & _ & evs1 & Ht1 & Hq).
    destruct (process_loop_Ok_inv _ _ _ _ _ Hloop) as (rows1 & Hrows & HF).
    cbn [app] in Hrows. subst rows1.
    rewrite saved_trace, Ht1, <- app_assoc in Htr.
    apply app_inv_head in Htr. subst evs.
    apply in_app_or in Hin as [Hin | Hin].
    + exfalso. eapply quiet_no_writerows; eassumption.
    + cbn [In] in Hin.
      destruct Hin as [Hin | [Hin | [Hin | []]]]; try discriminate.
      inversion Hin; subst rows. clear - HF.
      induction HF as [|review row reviews data Hrow _ IH]; constructor.
      * eapply row_of_length; exact Hrow.
      * exact IH.
  - destruct (process_reviews_Raise_quiet _ _ _ _ _ _ H)
      as (_ & _ & evs1 & Ht1 & Hq).
    rewrite Ht1 in Htr. apply app_inv_head in Htr. subst evs1.
    exfalso. eapply quiet_no_writerows; eassumption.
Qed.

(** X9. Saving twice to the same path leaves what the second call
    wrote, the header and its own rows: nothing of the first call's rows
    remains, and no other file is touched. *)
Theorem save_to_csv_replaces (first second : list (list str))
  (csv_file : str) (w : World) :
  writable w csv_file = true ->
  exists w1 w2,
    save_to_csv first csv_file w = (Ok tt, w1)
    /\ save_to_csv second csv_file w1 = (Ok tt, w2)
    /\ files w2 csv_file
       = Some (csv_record header ++ concat (map csv_record second))
    /\ forall p, p <> csv_file -> files w2 p = files w p.
Proof.
  intro Hwr.
  exists (saved first csv_file w), (saved second csv_file (saved first csv_file w)).
  split; [|split; [|split]].
  - now rewrite save_to_csv_spec, Hwr.
  - rewrite save_to_csv_spec.
    replace (writable (saved first csv_file w) csv_file) with true;
      [reflexivity|].
    symmetry. unfold saved, append_file.
    repeat (cbn [emit files set_file writable]; rewrite ?str_eqb_refl).
    exact Hwr.
  - apply saved_files.
  - intros p Hp.
    rewrite (proj2 (saved_files second csv_file _) p Hp).
    apply (proj2 (saved_files first csv_file w) p Hp).
Qed.

Lemma spec_field_stripped (l : Label) (review : str) :
  strip (spec_field l (split_all [LF] review))
  = spec_field l (split_all [LF] review).
Proof.
  apply spec_field_clean.
  - intros line Hin. eapply lines_without_LF; exact Hin.
  - split; [intros [] | reflexivity].
Qed.

(** X10. In the row of a review the original product, the guessed
    product and the review text have no blank at either end. *)
Theorem row_text_fields_stripped (data : list (list str)) (review : str)
  (w : World) (data' : list (list str)) (w' : World) :
  process_review data review w = (Ok data', w') ->
  exists original_product guessed_product review_text sentiment reply,
    data' = data ++ [[original_product; guessed_product; review_text;
                      sentiment; reply]]
    /\ strip original_product = original_product
    /\ strip guessed_product = guessed_product
    /\ strip review_text = review_text.
Proof.
  intro H.
  destruct (process_review_Ok_trace _ _ _ _ _ H) as (g & t & r & _ & Hd).
  eexists _, _, _, _, _. split; [exact Hd|]. split; [|split].
  - apply spec_field_stripped.
  - apply strip_idempotent.
  - apply spec_field_stripped.
Qed.

(** X11. The sentiment is lowercased but not trimmed: the blanks that
    stand before and after the answer to the sentiment call stand
    unchanged before and after the sentiment in the row, around the
    lowercased rest -- a line break after the label stays in the row. *)
Theorem sentiment_keeps_blanks (data : list (list str)) (review : str)
  (w : World) (data' : list (list str)) (w' : World) :
  process_review data review w = (Ok data', w') ->
  exists review_text answer row evs lead trail,
    trace w' = trace w ++ evs
    /\ In (EvSend
             (lit "Categorize the sentiment in one word of this review in Positive/Negative/Neutral: "
              ++ review_text)
             (Some answer)) evs
    /\ data' = data ++ [row]
    /\ answer = lead ++ strip answer ++ trail
    /\ Forall (fun c => isspace c = true) lead
    /\ Forall (fun c => isspace c = true) trail
    /\ nth_error row 3 = Some (lead ++ lower (strip answer) ++ trail).
Proof.
  intro H.
  destruct (process_review_Ok_trace _ _ _ _ _ H) as (g & t & r & Ht & Hd).
  destruct (strip_blank_segment t) as (lead & trail & Hseg & Hlead & Htrail).
  eexists _, t, _, _, lead, trail.
  split; [exact Ht|]. split; [|split; [exact Hd|]].
  - cbn [In]. right; left; reflexivity.
  - split; [exact Hseg|]. split; [exact Hlead|]. split; [exact Htrail|].
    cbn [nth_error]. f_equal.
    rewrite Hseg at 1. unfold lower. rewrite !map_app.
    fold (lower lead) (lower trail) (lower (strip t)).
    now rewrite (lower_blank lead Hlead), (lower_blank trail Htrail).
Qed.

(** X12. An input file that cannot be opened stops the run before
    anything is done, whatever the delimiter, the empty one included:
    the error is the [OSError] of the input path and the world is as it
    was. *)
Theorem unopenable_input_stops_before_any_effect
  (file_path csv_file delimiter : str) (w : World) :
  files w file_path = None ->
  process_reviews file_path csv_file delimiter w
  = (Raise (OSError file_path), w).
Proof.
  intro H. unfold process_reviews, bind. rewrite read_reviews_spec.
  unfold read_text. now rewrite H.
Qed.

(** X18. When [file.read()] has returned the text of the input and the
    delimiter is the empty string, the split raises [ValueError] with
    the message [empty separator]: no remote call is made, nothing is
    written, the world is as it was. *)
Theorem empty_delimiter_stops_before_any_call
  (file_path csv_file text : str) (w : World) :
  read_text w file_path = Some text ->
  process_reviews file_path csv_file [] w
  = (Raise (ValueError (lit "empty separator")), w).
Proof.
  intro H. unfold process_reviews, bind. rewrite read_reviews_spec.
  now rewrite H.
Qed.

(** X13. A blob with no [Review:] line is not skipped: its review text
    is empty, and the three calls are made all the same, with prompts
    that end where the review text would stand. *)
Theorem missing_review_line_sends_bare_prompts
  (data : list (list str)) (review : str) (w : World)
  (data' : list (list str)) (w' : World) :
  (forall line, In line (split_all [LF] review) ->
                startswith (lit "Review:") line = false) ->
  process_review data review w = (Ok data', w') ->
  exists original_product g t r,
    trace w' = trace w ++
      [EvSend (lit "Guess the product name based on this review in one word: ")
         (Some g);
       EvSend (lit "Categorize the sentiment in one word of this review in Positive/Negative/Neutral: ")
         (Some t);
       EvSend (lit "Add a 40 words reply to this review:  as per sentiment "
               ++ lower t) (Some r);
       EvSleep 2]
    /\ data' = data ++ [[original_product; strip g; []; lower t; r]].
Proof.
  intros Hno H.
  destruct (process_review_Ok_trace _ _ _ _ _ H) as (g & t & r & Ht & Hd).
  assert (E : spec_field Review (split_all [LF] review) = [])
    by (apply (spec_field_unlabelled Review); exact Hno).
  rewrite E in Ht, Hd.
  exists (spec_field Product (split_all [LF] review)), g, t, r.
  split; [exact Ht | exact Hd].
Qed.

(** X14. Whatever the key, the service and the files, [main] changes no
    file other than [transformed_reviews.csv]; the input file is one of
    those it leaves alone. *)
Theorem main_changes_only_the_csv (api_key : option str)
  (fs : str -> option str) (wr : str -> bool) (p : str) :
  p <> csv_path ->
  out_files (main os_error_text api_key fs wr) p = fs p.
Proof.
  intro Hp. unfold main.
  destruct api_key as [key|]; [|reflexivity].
  destruct (truthy key); [|reflexivity]. cbn [negb].
  destruct (start_chat key) as [e|chat_session]; [reflexivity|].
  destruct (process_reviews reviews_path csv_path default_delimiter
              {| files := fs; writable := wr; chat := chat_session;
                 trace := [] |}) as [[u|e] w'] eqn:Hrun.
  - destruct (process_reviews_Ok_inv _ _ _ _ _ _ Hrun)
      as (text & data & w1 & _ & _ & Hloop & _ & ->).
    cbn [out_files].
    rewrite (proj2 (saved_files data csv_path w1) p Hp).
    destruct (Quiet_process_loop _ _ _ _ _ Hloop) as (Hfs & _).
    now rewrite Hfs.
  - destruct (process_reviews_Raise_quiet _ _ _ _ _ _ Hrun) as (Hfs & _).
    unfold report. cbn [out_files]. now rewrite Hfs.
Qed.

(* ------------------------------------------------------------------ *)
(** *** Files in the documented layout *)

(** The first cut of the loader, on the blobs. *)
Lemma spec_blobs_cut (delimiter pre post : str) :
  truthy delimiter = true ->
  occurs delimiter (pre ++ removelast delimiter) = false ->
  spec_blobs (pre ++ delimiter ++ post) delimiter
  = (if truthy (strip pre) then [strip pre] else [])
    ++ spec_blobs post delimiter.
Proof.
  intros Hd Hfree.
  pose proof (find_first_at delimiter pre post Hd Hfree) as Hcut.
  unfold spec_blobs at 1, split_all.
  destruct (length (pre ++ delimiter ++ post)) as [|n] eqn:Hlen.
  - apply truthy_length in Hd. rewrite !length_app in Hlen. lia.
  - cbn [split_count]. rewrite Hcut. cbn [map filter].
    rewrite (split_count_saturates delimiter n (length post) post Hd).
    + destruct (truthy (strip pre)); reflexivity.
    + apply truthy_length in Hd. rewrite !length_app in Hlen. lia.
    + lia.
Qed.

Lemma format_reviews_blobs (delimiter : str) (reviews : list str) :
  truthy delimiter = true ->
  Forall (well_formed_review delimiter) reviews ->
  spec_blobs (format_reviews delimiter reviews) delimiter = reviews
  /\ spec_blobs (LF :: format_reviews delimiter reviews) delimiter = reviews.
Proof.
  intros Hd HF. induction HF as [|review rest (Hne & Hs & Hfree) _ [_ IH]].
  - split; apply spec_blobs_blank; try assumption; repeat constructor.
  - destruct (strip_padded LF LF review eq_refl Hne Hs) as [E1 E2].
    specialize (E2 eq_refl).
    cbn [format_reviews flat_map]. fold (format_reviews delimiter rest).
    split.
    + replace ((review ++ [LF] ++ delimiter ++ [LF])
               ++ format_reviews delimiter rest)
        with ((review ++ [LF]) ++ delimiter
              ++ LF :: format_reviews delimiter rest)
        by (now rewrite <- !app_assoc).
      rewrite spec_blobs_cut; [|exact Hd|].
      * rewrite E1, Hne, IH. reflexivity.
      * apply (occurs_false_middle delimiter [LF]
                 ((review ++ [LF]) ++ removelast delimiter) [] Hd).
        rewrite app_nil_r, <- app_assoc. exact Hfree.
    + replace (LF :: (review ++ [LF] ++ delimiter ++ [LF])
               ++ format_reviews delimiter rest)
        with ((LF :: review ++ [LF]) ++ delimiter
              ++ LF :: format_reviews delimiter rest)
        by (cbn [app]; rewrite <- !app_assoc; cbn [app];
            rewrite <- ?app_assoc; reflexivity).
      rewrite spec_blobs_cut; [|exact Hd|].
      * rewrite E2, Hne, IH. reflexivity.
      * cbn [app]. rewrite <- app_assoc. exact Hfree.
Qed.

Lemma format_reviews_without_CR (delimiter : str) (reviews : list str) :
  ~ In CR delimiter ->
  Forall (fun review => ~ In CR review) reviews ->
  ~ In CR (format_reviews delimiter reviews).
Proof.
  intros Hd HF. induction HF as [|review rest Hr _ IH]; [intros []|].
  cbn [format_reviews flat_map]. fold (format_reviews delimiter rest).
  intro Hin. repeat (apply in_app_or in Hin as [Hin | Hin]).
  - now apply Hr.
  - destruct Hin as [E | []]. discriminate E.
  - now apply Hd.
  - destruct Hin as [E | []]. discriminate E.
  - now apply IH.
Qed.

(** X15. A file whose characters are, for each review in turn, the
    review, a line feed, the delimiter and a line feed, loads back as
    exactly those reviews, in order -- provided the delimiter is not
    empty, neither it nor any review holds a carriage return, and each
    review is non-empty, has no blank at either end and lets the
    delimiter start nowhere on its lines. *)
Theorem formatted_file_loads_back (file_path delimiter : str)
  (reviews : list str) (w : World) :
  truthy delimiter = true ->
  ~ In CR delimiter ->
  Forall (fun review => ~ In CR review) reviews ->
  Forall (well_formed_review delimiter) reviews ->
  files w file_path = Some (format_reviews delimiter reviews) ->
  read_reviews file_path delimiter w = (Ok reviews, w).
Proof.
  intros Hd Hcr Hcrs HF Hf. rewrite read_reviews_spec.
  unfold read_text. rewrite Hf. cbn [option_map].
  rewrite (universal_newlines_without_CR _
             (format_reviews_without_CR delimiter reviews Hcr Hcrs)).
  rewrite Hd.
  now rewrite (proj1 (format_reviews_blobs delimiter reviews Hd HF)).
Qed.

(** X16. When the delimiter does not occur in the text that
    [file.read()] returns -- the characters of the file after CR LF and
    CR have become LF -- that text is one review, stripped (or none,
    when it is blank). *)
Theorem file_without_delimiter_is_one_review
  (file_path delimiter text : str) (w : World) :
  read_text w file_path = Some text ->
  truthy delimiter = true ->
  occurs delimiter text = false ->
  read_reviews file_path delimiter w
  = (Ok (if truthy (strip text) then [strip text] else []), w).
Proof.
  intros Hf Hd Hno. rewrite read_reviews_spec, Hf, Hd.
  unfold spec_blobs, split_all.
  assert (E : split_count (length text) delimiter text = [text]).
  { destruct (length text); cbn [split_count]; [reflexivity|].
    unfold occurs in Hno.
    destruct (find_first delimiter text) as [[a b]|];
      [discriminate | reflexivity]. }
  rewrite E. cbn [map filter].
  destruct (truthy (strip text)); reflexivity.
Qed.

(* ------------------------------------------------------------------ *)
(** *** The top level *)




End PipelineFacts.

(* ================================================================== *)
(** ** Concrete runs *)
(* ================================================================== *)

(** The two-review file with a service that answers: two rows reach the
    writer, as many as there are blobs. *)
Lemma rows_written_match_blobs_witness :
  let run := @process_reviews happy_remote in_path out_path default_delimiter
               happy_world in
  run = (fst run, snd run)
  /\ trace (snd run) = trace happy_world ++ trace (snd run)
  /\ (forall rows, In (EvWriterows rows) (trace (snd run)) -> length rows = 2)
  /\ (exists rows, In (EvWriterows rows) (trace (snd run))).
Proof.
  cbv zeta.
  assert (H1 : @process_reviews happy_remote in_path out_path default_delimiter
                 happy_world
               = (Ok tt,
                  snd (@process_reviews happy_remote in_path out_path
                         default_delimiter happy_world)))
    by (vm_compute; reflexivity).
  assert (H2 : trace (snd (@process_reviews happy_remote in_path out_path
                             default_delimiter happy_world))
               = trace happy_world
                 ++ trace (snd (@process_reviews happy_remote in_path out_path
                                  default_delimiter happy_world)))
    by reflexivity.
  destruct (@rows_written_match_blobs happy_remote in_path out_path
              default_delimiter happy_world _ _ _ H1 H2) as [Hrows Hsome].
  split; [destruct (@process_reviews happy_remote in_path out_path
                      default_delimiter happy_world); reflexivity|].
  split; [exact H2|]. split.
  - intros rows Hin. destruct (Hrows rows Hin) as (text & Hf & Hlen).
    vm_compute in Hf. injection Hf as <-. exact Hlen.
  - exact (Hsome tt eq_refl).
Defined.

(** The service fails on the sentiment call of the second review: the
    run raises, the row of the first review is lost and nothing was
    written. *)
Lemma remote_failure_aborts_before_writer_witness :
  let w1 := snd (@process_loop failing_remote [] [blob_toaster] failing_world) in
  let w2 := snd (@process_review failing_remote [row_toaster] blob_mug w1) in
  @read_reviews failing_remote in_path default_delimiter failing_world
  = (Ok ([blob_toaster] ++ blob_mug :: []), failing_world)
  /\ @process_loop failing_remote [] [blob_toaster] failing_world
     = (Ok [row_toaster], w1)
  /\ @process_review failing_remote [row_toaster] blob_mug w1
     = (Raise (RemoteError (lit "quota exceeded")), w2)
  /\ @process_reviews failing_remote in_path out_path default_delimiter
       failing_world
     = (Raise (RemoteError (lit "quota exceeded")), w2)
  /\ files w2 out_path = None.
Proof.
  cbv zeta.
  assert (H1 : @read_reviews failing_remote in_path default_delimiter
                 failing_world
               = (Ok ([blob_toaster] ++ blob_mug :: []), failing_world))
    by (vm_compute; reflexivity).
  assert (H2 : @process_loop failing_remote [] [blob_toaster] failing_world
               = (Ok [row_toaster],
                  snd (@process_loop failing_remote [] [blob_toaster]
                         failing_world)))
    by (vm_compute; reflexivity).
  assert (H3 : @process_review failing_remote [row_toaster] blob_mug
                 (snd (@process_loop failing_remote [] [blob_toaster]
                         failing_world))
               = (Raise (RemoteError (lit "quota exceeded")),
                  snd (@process_review failing_remote [row_toaster] blob_mug
                         (snd (@process_loop failing_remote [] [blob_toaster]
                                 failing_world)))))
    by (vm_compute; reflexivity).
  destruct (@remote_failure_aborts_before_writer failing_remote in_path
              out_path default_delimiter failing_world [blob_toaster] blob_mug
              [] _ _ _ _ _ H1 H2 H3) as (Hrun & _ & Hfiles & _).
  split; [exact H1|]. split; [exact H2|]. split; [exact H3|].
  split; [exact Hrun|].
  rewrite Hfiles. reflexivity.
Defined.

(** The two-review file with a service that answers: the destination
    holds the header and two records. *)
Lemma writer_overwrites_header_then_rows_witness :
  let w' := snd (@process_reviews happy_remote in_path out_path
                   default_delimiter happy_world) in
  @process_reviews happy_remote in_path out_path default_delimiter happy_world
  = (Ok tt, w')
  /\ exists data,
       length data = 2
       /\ files w' out_path
          = Some (lit "Original Product,Guessed Product,Review,Sentiment,Reply"
                  ++ [CR; LF] ++ concat (map csv_record data)).
Proof.
  cbv zeta.
  assert (H : @process_reviews happy_remote in_path out_path default_delimiter
                happy_world
              = (Ok tt,
                 snd (@process_reviews happy_remote in_path out_path
                        default_delimiter happy_world)))
    by (vm_compute; reflexivity).
  destruct (@writer_overwrites_header_then_rows happy_remote in_path out_path
              default_delimiter happy_world _ tt H)
    as (reviews & data & evs & Hread & HF & Hfiles & _).
  split; [exact H|]. exists data. split; [|exact Hfiles].
  rewrite (Forall2_length_eq _ _ _ HF).
  vm_compute in Hread. injection Hread as <-. reflexivity.
Defined.

(** The first review with the scripted answers: the service said
    [Positive], the row holds [positive]. *)
Lemma sentiment_field_is_lowercased_response_witness :
  exists row w',
    @process_review happy_remote [] blob_toaster happy_world = (Ok [row], w')
    /\ nth_error row 3 = Some (lit "positive").
Proof.
  destruct (@sentiment_field_is_lowercased_response happy_remote []
              blob_toaster happy_world (lit "Toaster") (lit "Works great")
              (lit " Toaster ") (lit "Positive") (lit "Thank you!")
              (skipn 1 happy_script) (skipn 2 happy_script)
              (skipn 3 happy_script))
    as (row & w' & Hrun & Hnth & _); try (vm_compute; reflexivity).
  exists row, w'. split; [exact Hrun | exact Hnth].
Defined.

(** The first review with the scripted answers: guess, sentiment, reply,
    sleep. *)
Lemma review_calls_in_order_witness :
  let w' := snd (@process_review happy_remote [] blob_toaster happy_world) in
  @process_review happy_remote [] blob_toaster happy_world
  = (Ok [row_toaster], w')
  /\ trace w'
     = [EvSend
          (lit "Guess the product name based on this review in one word: Works great")
          (Some (lit " Toaster "));
        EvSend
          (lit "Categorize the sentiment in one word of this review in Positive/Negative/Neutral: Works great")
          (Some (lit "Positive"));
        EvSend
          (lit "Add a 40 words reply to this review: Works great as per sentiment positive")
          (Some (lit "Thank you!"));
        EvSleep 2].
Proof.
  cbv zeta.
  assert (H : @process_review happy_remote [] blob_toaster happy_world
              = (Ok [row_toaster],
                 snd (@process_review happy_remote [] blob_toaster
                        happy_world)))
    by (vm_compute; reflexivity).
  destruct (@review_calls_in_order happy_remote [] blob_toaster [] happy_world
              _ _ H) as (op & rt & g & t & r & _ & Htr & _).
  split; [exact H|]. vm_compute. reflexivity.
Defined.

(** Two [Product:] lines: the second decides. *)
Lemma extractor_last_labelled_line_wins_witness :
  exists fields,
    @extract_review_info happy_remote blob_two_products happy_world
    = (Ok fields, happy_world)
    /\ field Product fields = lit "Lamp".
Proof.
  apply (@extractor_last_labelled_line_wins happy_remote Product
           blob_two_products [lit "Product: Kettle"] (lit "Product: Lamp")
           [lit "Review: Fine"] happy_world).
  - vm_compute; reflexivity.
  - vm_compute; reflexivity.
  - intros x [<-|[]]. vm_compute; reflexivity.
Defined.

(** The delimiter in the middle of a line: two blobs. *)
Lemma loader_splits_at_every_delimiter_witness :
  read_text midline_world in_path = Some midline_text
  /\ truthy default_delimiter = true
  /\ @read_reviews happy_remote in_path default_delimiter midline_world
     = (Ok [lit "Review: good"; lit "and more"], midline_world).
Proof.
  assert (Hf : read_text midline_world in_path = Some midline_text)
    by (vm_compute; reflexivity).
  assert (Hd : truthy default_delimiter = true) by reflexivity.
  destruct (@loader_splits_at_every_delimiter happy_remote in_path
              default_delimiter midline_text midline_world Hf Hd)
    as (blobs & Hread & _ & Hcut).
  split; [exact Hf|]. split; [exact Hd|].
  rewrite Hread.
  rewrite (Hcut (lit "Review: good ") (lit " and more"));
    vm_compute; reflexivity.
Defined.

(* ================================================================== *)
(** ** Concrete runs for the further properties *)
(* ================================================================== *)

Lemma loaded_reviews_nonempty_stripped_witness :
  @read_reviews happy_remote in_path default_delimiter happy_world
  = (Ok [blob_toaster; blob_mug], happy_world)
  /\ In blob_mug [blob_toaster; blob_mug]
  /\ truthy blob_mug = true /\ strip blob_mug = blob_mug.
Proof.
  assert (H : @read_reviews happy_remote in_path default_delimiter happy_world
              = (Ok [blob_toaster; blob_mug], happy_world))
    by (vm_compute; reflexivity).
  assert (Hin : In blob_mug [blob_toaster; blob_mug]) by (right; left; reflexivity).
  split; [exact H|]. split; [exact Hin|].
  exact (@loaded_reviews_nonempty_stripped happy_remote in_path
           default_delimiter happy_world _ _ H blob_mug Hin).
Defined.

Lemma blank_input_writes_header_only_witness :
  exists w',
    @process_reviews happy_remote in_path out_path default_delimiter blank_world
    = (Ok tt, w')
    /\ trace w' = [EvOpenWrite out_path; EvWriterow header; EvWriterows []].
Proof.
  destruct (@blank_input_writes_header_only happy_remote in_path out_path
              default_delimiter blank_text blank_world)
    as (w' & Hrun & Htr & _).
  - vm_compute; reflexivity.
  - repeat constructor.
  - reflexivity.
  - reflexivity.
  - exists w'. split; [exact Hrun | exact Htr].
Defined.

Lemma completed_run_calls_and_sleeps_witness :
  let w' := snd (@process_reviews happy_remote in_path out_path
                   default_delimiter happy_world) in
  @process_reviews happy_remote in_path out_path default_delimiter happy_world
  = (Ok tt, w')
  /\ exists data evs,
       trace w' = evs ++ [EvOpenWrite out_path; EvWriterow header;
                          EvWriterows data]
       /\ sends evs = 6 /\ slept evs = 4.
Proof.
  cbv zeta.
  assert (H : @process_reviews happy_remote in_path out_path default_delimiter
                happy_world
              = (Ok tt,
                 snd (@process_reviews happy_remote in_path out_path
                        default_delimiter happy_world)))
    by (vm_compute; reflexivity).
  destruct (@completed_run_calls_and_sleeps happy_remote in_path out_path
              default_delimiter happy_world _ tt H)
    as (text & data & evs & Hf & Htr & _ & Hsends & Hslept).
  split; [exact H|]. exists data, evs.
  vm_compute in Hf. injection Hf as <-.
  split; [exact Htr|]. split; [exact Hsends | exact Hslept].
Defined.

Lemma failed_call_is_last_effect_witness :
  let w' := snd (@process_reviews failing_remote in_path out_path
                   default_delimiter failing_world) in
  @process_reviews failing_remote in_path out_path default_delimiter
    failing_world
  = (Raise (RemoteError (lit "quota exceeded")), w')
  /\ exists evs prompt,
       trace w' = evs ++ [EvSend prompt None]
       /\ Forall (fun ev => calm ev = true) evs.
Proof.
  cbv zeta.
  assert (H : @process_reviews failing_remote in_path out_path
                default_delimiter failing_world
              = (Raise (RemoteError (lit "quota exceeded")),
                 snd (@process_reviews failing_remote in_path out_path
                        default_delimiter failing_world)))
    by (vm_compute; reflexivity).
  split; [exact H|].
  exact (@failed_call_is_last_effect failing_remote in_path out_path
           default_delimiter failing_world (lit "quota exceeded") _ H).
Defined.

Lemma loop_errors_are_remote_witness :
  let run := @process_loop failing_remote [] [blob_toaster; blob_mug]
               failing_world in
  run = (Raise (RemoteError (lit "quota exceeded")), snd run)
  /\ exists r, @RemoteError (@RemoteErr failing_remote) (lit "quota exceeded")
               = RemoteError r.
Proof.
  cbv zeta.
  assert (H : @process_loop failing_remote [] [blob_toaster; blob_mug]
                failing_world
              = (Raise (RemoteError (lit "quota exceeded")),
                 snd (@process_loop failing_remote [] [blob_toaster; blob_mug]
                        failing_world)))
    by (vm_compute; reflexivity).
  split; [exact H|].
  exact (@loop_errors_are_remote failing_remote _ _ _ _ _ H).
Defined.

Lemma unwritable_destination_found_after_calls_witness :
  let w1 := snd (@process_loop happy_remote [] [blob_toaster; blob_mug]
                   readonly_world) in
  @process_reviews happy_remote in_path out_path default_delimiter
    readonly_world
  = (Raise (OSError out_path), w1)
  /\ files w1 out_path = None
  /\ exists evs, trace w1 = evs /\ sends evs = 6.
Proof.
  cbv zeta.
  destruct (@unwritable_destination_found_after_calls happy_remote in_path
              out_path default_delimiter two_reviews readonly_world
              [row_toaster; row_mug]
              (snd (@process_loop happy_remote [] [blob_toaster; blob_mug]
                      readonly_world)))
    as (Hrun & Hfs & evs & Htr & Hsends);
    try (vm_compute; reflexivity).
  split; [exact Hrun|]. split; [rewrite Hfs; reflexivity|].
  exists evs. split; [exact Htr | exact Hsends].
Defined.

Lemma main_changes_only_the_csv_witness :
  reviews_path <> csv_path
  /\ out_files (@main happy_remote (fun p => p) (Some (lit "key"))
                  (one_file reviews_path two_reviews) (fun _ => true))
       reviews_path
     = Some two_reviews.
Proof.
  assert (Hp : reviews_path <> csv_path)
    by (intro E; vm_compute in E; discriminate E).
  split; [exact Hp|].
  rewrite (@main_changes_only_the_csv happy_remote (fun p => p)
             (Some (lit "key")) (one_file reviews_path two_reviews)
             (fun _ => true) reviews_path Hp).
  vm_compute; reflexivity.
Defined.

Lemma rows_have_header_width_witness :
  let w' := snd (@process_reviews happy_remote in_path out_path
                   default_delimiter happy_world) in
  In (EvWriterows [row_toaster; row_mug]) (trace w')
  /\ Forall (fun row => length row = 5) [row_toaster; row_mug].
Proof.
  cbv zeta.
  assert (H : @process_reviews happy_remote in_path out_path default_delimiter
                happy_world
              = (Ok tt,
                 snd (@process_reviews happy_remote in_path out_path
                        default_delimiter happy_world)))
    by (vm_compute; reflexivity).
  assert (Hin : In (EvWriterows [row_toaster; row_mug])
                  (trace (snd (@process_reviews happy_remote in_path out_path
                                 default_delimiter happy_world))))
    by (vm_compute; do 10 right; left; reflexivity).
  split; [exact Hin|].
  exact (@rows_have_header_width happy_remote in_path out_path
           default_delimiter happy_world _ _ _ _ H eq_refl Hin).
Defined.

Lemma save_to_csv_replaces_witness :
  exists w1 w2,
    @save_to_csv happy_remote [row_toaster] out_path happy_world = (Ok tt, w1)
    /\ @save_to_csv happy_remote [row_mug] out_path w1 = (Ok tt, w2)
    /\ files w2 out_path
       = Some (csv_record header ++ concat (map csv_record [row_mug])).
Proof.
  destruct (@save_to_csv_replaces happy_remote [row_toaster] [row_mug]
              out_path happy_world eq_refl)
    as (w1 & w2 & H1 & H2 & Hf & _).
  exists w1, w2. split; [exact H1|]. split; [exact H2 | exact Hf].
Defined.

Lemma row_text_fields_stripped_witness :
  let w' := snd (@process_review happy_remote [] blob_toaster happy_world) in
  @process_review happy_remote [] blob_toaster happy_world
  = (Ok [row_toaster], w')
  /\ exists original_product guessed_product review_text sentiment reply,
       [row_toaster] = [] ++ [[original_product; guessed_product; review_text;
                               sentiment; reply]]
       /\ strip original_product = original_product
       /\ strip guessed_product = guessed_product
       /\ strip review_text = review_text.
Proof.
  cbv zeta.
  assert (H : @process_review happy_remote [] blob_toaster happy_world
              = (Ok [row_toaster],
                 snd (@process_review happy_remote [] blob_toaster
                        happy_world)))
    by (vm_compute; reflexivity).
  split; [exact H|].
  exact (@row_text_fields_stripped happy_remote [] blob_toaster happy_world
           _ _ H).
Defined.

Lemma sentiment_keeps_blanks_witness :
  let w' := snd (@process_review happy_remote [] blob_toaster happy_world) in
  @process_review happy_remote [] blob_toaster happy_world
  = (Ok [row_toaster], w')
  /\ exists review_text answer row evs lead trail,
       trace w' = trace happy_world ++ evs
       /\ In (EvSend
                (lit "Categorize the sentiment in one word of this review in Positive/Negative/Neutral: "
                 ++ review_text)
                (Some answer)) evs
       /\ [row_toaster] = [] ++ [row]
       /\ answer = lead ++ strip answer ++ trail
       /\ Forall (fun c => isspace c = true) lead
       /\ Forall (fun c => isspace c = true) trail
       /\ nth_error row 3 = Some (lead ++ lower (strip answer) ++ trail).
Proof.
  cbv zeta.
  assert (H : @process_review happy_remote [] blob_toaster happy_world
              = (Ok [row_toaster],
                 snd (@process_review happy_remote [] blob_toaster
                        happy_world)))
    by (vm_compute; reflexivity).
  split; [exact H|].
  exact (@sentiment_keeps_blanks happy_remote [] blob_toaster happy_world
           _ _ H).
Defined.

Lemma unopenable_input_stops_before_any_effect_witness :
  @process_reviews happy_remote (lit "absent.txt") out_path [] happy_world
  = (Raise (OSError (lit "absent.txt")), happy_world).
Proof.
  apply (@unopenable_input_stops_before_any_effect happy_remote
           (lit "absent.txt") out_path [] happy_world).
  vm_compute; reflexivity.
Defined.

Lemma empty_delimiter_stops_before_any_call_witness :
  @process_reviews happy_remote in_path out_path [] happy_world
  = (Raise (ValueError (lit "empty separator")), happy_world).
Proof.
  apply (@empty_delimiter_stops_before_any_call happy_remote in_path out_path
           two_reviews happy_world).
  vm_compute; reflexivity.
Defined.

Lemma formatted_file_loads_back_witness :
  @read_reviews happy_remote in_path default_delimiter formatted_world
  = (Ok [blob_toaster; blob_mug], formatted_world).
Proof.
  apply (@formatted_file_loads_back happy_remote in_path default_delimiter
           [blob_toaster; blob_mug] formatted_world).
  - reflexivity.
  - intro H. vm_compute in H. repeat (destruct H as [H | H]; [discriminate H|]).
    exact H.
  - repeat constructor; intro H; vm_compute in H;
      repeat (destruct H as [H | H]; [discriminate H|]); exact H.
  - repeat constructor; vm_compute; reflexivity.
  - vm_compute; reflexivity.
Defined.

Lemma missing_review_line_sends_bare_prompts_witness :
  exists data' w' original_product g t r,
    @process_review happy_remote [] blob_no_review happy_world = (Ok data', w')
    /\ data' = [] ++ [[original_product; strip g; []; lower t; r]].
Proof.
  assert (H : @process_review happy_remote [] blob_no_review happy_world
              = (fst (@process_review happy_remote [] blob_no_review
                        happy_world),
                 snd (@process_review happy_remote [] blob_no_review
                        happy_world)))
    by (vm_compute; reflexivity).
  assert (Hno : forall line, In line (split_all [LF] blob_no_review) ->
                             startswith (lit "Review:") line = false).
  { intros line Hin. vm_compute in Hin. destruct Hin as [<-|[]].
    vm_compute; reflexivity. }
  assert (Hok : fst (@process_review happy_remote [] blob_no_review happy_world)
                = Ok [[lit "Kettle"; lit "Toaster"; []; lit "positive";
                       lit "Thank you!"]])
    by (vm_compute; reflexivity).
  rewrite Hok in H.
  destruct (@missing_review_line_sends_bare_prompts happy_remote []
              blob_no_review happy_world _ _ Hno H)
    as (op & g & t & r & _ & Hd).
  eexists _, _, op, g, t, r. split; [exact H | exact Hd].
Defined.

Lemma file_without_delimiter_is_one_review_witness :
  @read_reviews happy_remote in_path (lit "###") happy_world
  = (Ok [strip two_reviews], happy_world).
Proof.
  exact (@file_without_delimiter_is_one_review happy_remote in_path
           (lit "###") two_reviews happy_world eq_refl eq_refl eq_refl).
Defined.
